(** * go.nhat.io/exec: descriptors, pipelines and their lifecycle

    A shallow embedding of [exec.go]: the [Cmd] descriptor that wraps
    [os/exec.Cmd], the functional options that build a pipeline, the wiring
    pass [setupCmd], and the [Start] / [Wait] / [Run] lifecycle.

    The collaborators the package only calls into (the process-spawn
    primitive of [os/exec], the tracer, the logger, [io.Pipe], path lookup)
    are modelled by their contract: every call is written to an event trace
    kept in the [World], and what the operating system answers is read from
    an [OS] instance. *)

From Stdlib Require Import String Ascii List ZArith Lia Bool Arith DecimalString.
Import ListNotations.
Local Open Scope string_scope.
Local Open Scope list_scope.

Set Warnings "-register-all".

(** ** Errors *)

(** Go [error] values that occur in the package.  [ErrorString] is the
    result of [errors.New]; [ExecError] is [&exec.Error{Name, Err}], the
    wrapper [exec.LookPath] returns; [ErrNotFound] is the sentinel
    [exec.ErrNotFound]; [ExitError] is [*exec.ExitError]. *)
Inductive Error : Type :=
| ErrorString (s : string)
| ErrNotFound
| ExecError (name : string) (err : Error)
| ExitError (code : Z).

Definition errors_New (s : string) : Error := ErrorString s.

Definition string_of_Z (z : Z) : string := NilZero.string_of_int (Z.to_int z).

Definition dquote : string := String (ascii_of_nat 34) EmptyString.

(** [err.Error()]. *)
Fixpoint Error_msg (e : Error) : string :=
  match e with
  | ErrorString s => s
  | ErrNotFound => "executable file not found in $PATH"
  | ExecError name err => "exec: " ++ dquote ++ name ++ dquote ++ ": " ++ Error_msg err
  | ExitError code => "exit status " ++ string_of_Z code
  end.

(** [errors.Is(e, target)] for the sentinels used here: unwraps
    [exec.Error]. *)
Fixpoint errors_Is_NotFound (e : Error) : bool :=
  match e with
  | ErrNotFound => true
  | ExecError _ err => errors_Is_NotFound err
  | _ => false
  end.

(** ** Stdio bindings, closers, tracing and logging handles *)

Inductive Reader : Type :=
| RNil
| RUser (id : nat)
| RPipe (id : nat).              (* read end of an [io.Pipe] *)

Inductive Writer : Type :=
| WNil
| WUser (id : nat)
| WBuffer (id : nat)             (* a [*bytes.Buffer] *)
| WPipe (id : nat)               (* write end of an [io.Pipe] *)
| WMulti (ws : list Writer).     (* [io.MultiWriter] *)

(** [io.MultiWriter(ws...)]: nested multi-writers are flattened. *)
Definition io_MultiWriter (ws : list Writer) : Writer :=
  WMulti (flat_map (fun w => match w with WMulti l => l | _ => [w] end) ws).

Inductive Closer : Type :=
| NopCloser                      (* [io.NopCloser(nil)] *)
| PipeWriter (id : nat).         (* [*io.PipeWriter] *)

Inductive Tracer : Type :=
| NoopTracer                     (* [trace.NewNoopTracerProvider().Tracer("")] *)
| UserTracer (id : nat).

Inductive Logger : Type :=
| NoOpLogger                     (* [ctxd.NoOpLogger{}] *)
| UserLogger (id : nat).

Inductive Code : Type := CodeOk | CodeError.

(** A [context.Context]: the caller's context and the span it carries, if
    any ([trace.ContextWithSpan]). *)
Record Context : Type := mkContext {
  ctx_base : nat;
  ctx_span : option nat
}.

Definition context_Background : Context := mkContext 0 None.

(** [trace.SpanFromContext]: [None] stands for the no-op span. *)
Definition SpanFromContext (c : Context) : option nat := ctx_span c.

(** ** [os/exec.Cmd] *)

(** The fields of [exec.Cmd] the package touches.  [ProcessState] holds the
    exit code once the process has been waited on. *)
Record ExecCmd : Type := mkExecCmd {
  Path : string;
  Args : list string;
  Env : list string;
  Stdin : Reader;
  Stdout : Writer;
  Stderr : Writer;
  Err : option Error;
  Process : option nat;
  ProcessState : option Z
}.

(** [ExitCode] of [os.ProcessState]: -1 on the nil receiver. *)
Definition ExitCode (ps : option Z) : Z :=
  match ps with
  | Some code => code
  | None => (-1)%Z
  end.

Inductive SpawnResult : Type :=
| Spawned (pid : nat)
| SpawnFailed (e : Error).

(** What [Process.Wait] and the I/O copying report: the process exited with
    [code] (and copying may have failed with [copyErr]), or the wait itself
    failed and left no process state. *)
Inductive WaitOutcome : Type :=
| Exited (code : Z) (copyErr : option Error)
| WaitFailed (e : Error).

Inductive LogVal : Type :=
| LVErr (e : Error)
| LVInt (z : Z)
| LVStr (s : string).

(** ** The event trace *)

Inductive Event : Type :=
| EvSpanStart (sp : nat) (t : Tracer) (parent : option nat) (name : string)
              (args : list string)
| EvSpanSetAttrInt (sp : nat) (key : string) (v : Z)
| EvSpanSetStatus (sp : nat) (code : Code) (msg : string)
| EvSpanRecordError (sp : nat) (e : Error)
| EvSpanEnd (sp : nat)
| EvSpawn (c : ExecCmd) (r : SpawnResult)
| EvProcWait (pid : nat) (o : WaitOutcome)
| EvClose (cl : Closer)
| EvLog (l : Logger) (msg : string) (kv : list (string * LogVal)).

Record World : Type := mkWorld {
  events : list Event;          (* oldest first *)
  fresh : nat                   (* next unused identifier *)
}.

(** ** The state monad threaded through the package *)

Definition M (A : Type) : Type := World -> A * World.

Definition ret {A} (a : A) : M A := fun w => (a, w).

Definition bind {A B} (m : M A) (k : A -> M B) : M B :=
  fun w => let (a, w') := m w in k a w'.

Declare Scope exec_scope.
Delimit Scope exec_scope with exec.
Notation "x <- m ;; k" := (bind m (fun x => k))
  (at level 61, m at next level, right associativity) : exec_scope.
Notation "' pat <- m ;; k" := (bind m (fun x => match x with pat => k end))
  (at level 61, pat pattern, m at next level, right associativity) : exec_scope.
Notation "m ;; k" := (bind m (fun _ => k))
  (at level 61, right associativity) : exec_scope.
Local Open Scope exec_scope.

Definition emit (e : Event) : M unit :=
  fun w => (tt, mkWorld (events w ++ [e]) (fresh w)).

Definition new_id : M nat :=
  fun w => (fresh w, mkWorld (events w) (S (fresh w))).

(** ** The platform *)

(** Everything the package asks of its surroundings. *)
Class OS : Type := {
  exec_LookPath : string -> string * option Error;
  os_Environ : list string;
  filepath_Clean : string -> string;
  filepath_Base : string -> string;
  exec_String : ExecCmd -> string;         (* [String] of [exec.Cmd] *)
  os_spawn : ExecCmd -> option Error;      (* fork/exec of a resolved command *)
  os_wait : ExecCmd -> WaitOutcome;
  stderr_output : ExecCmd -> string;       (* what the process wrote to stderr *)
  TraceID_String : nat -> string;
  SpanID_String : nat -> string
}.

(** ** The descriptor *)

Inductive Cmd : Type := mkCmd {
  cmd : ExecCmd;
  Next : option Cmd;
  ctx : Context;
  stdErr : nat;
  closer : Closer;
  tracer : Tracer;
  logger : Logger
}.

Definition set_Args (v : list string) (e : ExecCmd) : ExecCmd :=
  mkExecCmd (Path e) v (Env e) (Stdin e) (Stdout e) (Stderr e) (Err e)
            (Process e) (ProcessState e).
Definition set_Env (v : list string) (e : ExecCmd) : ExecCmd :=
  mkExecCmd (Path e) (Args e) v (Stdin e) (Stdout e) (Stderr e) (Err e)
            (Process e) (ProcessState e).
Definition set_Stdin (v : Reader) (e : ExecCmd) : ExecCmd :=
  mkExecCmd (Path e) (Args e) (Env e) v (Stdout e) (Stderr e) (Err e)
            (Process e) (ProcessState e).
Definition set_Stdout (v : Writer) (e : ExecCmd) : ExecCmd :=
  mkExecCmd (Path e) (Args e) (Env e) (Stdin e) v (Stderr e) (Err e)
            (Process e) (ProcessState e).
Definition set_Stderr (v : Writer) (e : ExecCmd) : ExecCmd :=
  mkExecCmd (Path e) (Args e) (Env e) (Stdin e) (Stdout e) v (Err e)
            (Process e) (ProcessState e).
Definition set_Err (v : option Error) (e : ExecCmd) : ExecCmd :=
  mkExecCmd (Path e) (Args e) (Env e) (Stdin e) (Stdout e) (Stderr e) v
            (Process e) (ProcessState e).
Definition set_Process (v : option nat) (e : ExecCmd) : ExecCmd :=
  mkExecCmd (Path e) (Args e) (Env e) (Stdin e) (Stdout e) (Stderr e) (Err e)
            v (ProcessState e).
Definition set_ProcessState (v : option Z) (e : ExecCmd) : ExecCmd :=
  mkExecCmd (Path e) (Args e) (Env e) (Stdin e) (Stdout e) (Stderr e) (Err e)
            (Process e) v.

Definition set_cmd (v : ExecCmd) (c : Cmd) : Cmd :=
  mkCmd v (Next c) (ctx c) (stdErr c) (closer c) (tracer c) (logger c).
Definition upd_cmd (f : ExecCmd -> ExecCmd) (c : Cmd) : Cmd :=
  set_cmd (f (cmd c)) c.
Definition set_Next (v : option Cmd) (c : Cmd) : Cmd :=
  mkCmd (cmd c) v (ctx c) (stdErr c) (closer c) (tracer c) (logger c).
Definition set_ctx (v : Context) (c : Cmd) : Cmd :=
  mkCmd (cmd c) (Next c) v (stdErr c) (closer c) (tracer c) (logger c).
Definition set_closer (v : Closer) (c : Cmd) : Cmd :=
  mkCmd (cmd c) (Next c) (ctx c) (stdErr c) v (tracer c) (logger c).
Definition set_tracer (v : Tracer) (c : Cmd) : Cmd :=
  mkCmd (cmd c) (Next c) (ctx c) (stdErr c) (closer c) v (logger c).
Definition set_logger (v : Logger) (c : Cmd) : Cmd :=
  mkCmd (cmd c) (Next c) (ctx c) (stdErr c) (closer c) (tracer c) v.

(** Number of stages reachable through [Next], the receiver included. *)
Fixpoint chain_len (c : Cmd) : nat :=
  match Next c with
  | Some n => S (chain_len n)
  | None => 1
  end.

(** The stages of a chain, head first. *)
Fixpoint nodes (c : Cmd) : list Cmd :=
  c :: match Next c with
       | Some n => nodes n
       | None => []
       end.

(** ** [strings.Trim(s, "\r\n ")] *)

Definition in_cutset (a : ascii) : bool :=
  let n := nat_of_ascii a in
  Nat.eqb n 13 || Nat.eqb n 10 || Nat.eqb n 32.

Fixpoint trim_left (s : string) : string :=
  match s with
  | String a r => if in_cutset a then trim_left r else s
  | EmptyString => EmptyString
  end.

Fixpoint trim_right (s : string) : string :=
  match s with
  | EmptyString => EmptyString
  | String a r =>
      match trim_right r with
      | EmptyString => if in_cutset a then EmptyString else String a EmptyString
      | r' => String a r'
      end
  end.

Definition strings_Trim (s : string) : string := trim_right (trim_left s).

(** ** Recursion along the chain

    [Wait] and [setupCmd] call themselves on the next stage after having
    updated it.  Their bodies are written with the recursive call as a
    parameter and unrolled once per stage. *)
Fixpoint unroll
    (body : (Cmd -> M (option Error * Cmd)) -> Cmd -> M (option Error * Cmd))
    (k : nat) : Cmd -> M (option Error * Cmd) :=
  match k with
  | O => fun c => ret (None, c)
  | S k' => body (unroll body k')
  end.

Section Package.

Context {os : OS}.

(** ** Collaborators *)

(** [tracer.Start(ctx, name, WithAttributes(StringSlice("exec.args", args)))]:
    opens a span with a new identifier and returns the context carrying
    it.  The trace lists the calls the package makes, whatever the backend
    does with them, so the spans of the no-op tracer appear in it like the
    others. *)
Definition tracer_Start (t : Tracer) (c : Context) (name : string)
    (args : list string) : M (Context * nat) :=
  sp <- new_id ;;
  emit (EvSpanStart sp t (ctx_span c) name args) ;;
  ret (mkContext (ctx_base c) (Some sp), sp).

(** Calls on the no-op span leave no trace. *)
Definition on_span (span : option nat) (f : nat -> Event) : M unit :=
  match span with
  | Some sp => emit (f sp)
  | None => ret tt
  end.

Definition span_SetAttrInt (span : option nat) (key : string) (v : Z) : M unit :=
  on_span span (fun sp => EvSpanSetAttrInt sp key v).
Definition span_SetStatus (span : option nat) (code : Code) (msg : string) : M unit :=
  on_span span (fun sp => EvSpanSetStatus sp code msg).
Definition span_RecordError (span : option nat) (e : Error) : M unit :=
  on_span span (fun sp => EvSpanRecordError sp e).
Definition span_End (span : option nat) : M unit :=
  on_span span EvSpanEnd.

Definition logger_Debug (l : Logger) (msg : string) (kv : list (string * LogVal)) : M unit :=
  emit (EvLog l msg kv).

Definition closer_Close (cl : Closer) : M unit := emit (EvClose cl).

(** [io.Pipe()]: both ends share the new identifier. *)
Definition io_Pipe : M nat := new_id.

(** [exec.CommandContext(ctx, name)] of the standard library: the path is
    [name], or what the lookup returns when [name] has no directory part;
    a failed lookup is kept in [Err]. *)
Definition exec_CommandContext (name : string) : ExecCmd :=
  let base := mkExecCmd name [name] [] RNil WNil WNil None None None in
  if String.eqb (filepath_Base name) name then
    let (lp, err) := exec_LookPath name in
    let c := if String.eqb lp "" then base
             else mkExecCmd lp [name] [] RNil WNil WNil None None None in
    match err with
    | Some e => set_Err (Some e) c
    | None => c
    end
  else base.

(** [Start] of [exec.Cmd], the process-spawn primitive: refuses a second
    start, reports a deferred [Err], otherwise asks the operating system. *)
Definition exec_Start (e : ExecCmd) : M (option Error * ExecCmd) :=
  match Process e with
  | Some _ => ret (Some (errors_New "exec: already started"), e)
  | None =>
      match Err e with
      | Some err => emit (EvSpawn e (SpawnFailed err)) ;; ret (Some err, e)
      | None =>
          match os_spawn e with
          | Some err => emit (EvSpawn e (SpawnFailed err)) ;; ret (Some err, e)
          | None =>
              pid <- new_id ;;
              emit (EvSpawn e (Spawned pid)) ;;
              ret (None, set_Process (Some pid) e)
          end
      end
  end.

(** [Wait] of [exec.Cmd]. *)
Definition exec_Wait (e : ExecCmd) : M (option Error * ExecCmd) :=
  match Process e with
  | None => ret (Some (errors_New "exec: not started"), e)
  | Some pid =>
      match ProcessState e with
      | Some _ => ret (Some (errors_New "exec: Wait was already called"), e)
      | None =>
          emit (EvProcWait pid (os_wait e)) ;;
          match os_wait e with
          | Exited code copyErr =>
              ret (if (code =? 0)%Z then copyErr else Some (ExitError code),
                   set_ProcessState (Some code) e)
          | WaitFailed err => ret (Some err, e)
          end
      end
  end.

(** ** [Cmd.String] *)

Fixpoint Cmd_String (c : Cmd) : string :=
  exec_String (cmd c) ++
  match Next c with
  | Some n => " | " ++ Cmd_String n
  | None => ""
  end.

(** ** [Cmd.Start] *)

(** Lines 77-81: stderr always reaches the private buffer. *)
Definition wire_stderr (c : Cmd) : Cmd :=
  match Stderr (cmd c) with
  | WNil => upd_cmd (set_Stderr (WBuffer (stdErr c))) c
  | s => upd_cmd (set_Stderr (io_MultiWriter [WBuffer (stdErr c); s])) c
  end.

(** Lines 84-87: the identifiers of the span, for the child process. *)
Definition trace_env (sp : nat) : list string :=
  [("TRACE_ID=" ++ TraceID_String sp)%string;
   ("SPAN_ID=" ++ SpanID_String sp)%string].

Definition inject_trace_env (sp : nat) (c : Cmd) : Cmd :=
  upd_cmd (set_Env (Env (cmd c) ++ trace_env sp)) c.

(** Lines 89-91: the next stage inherits the span-bearing context. *)
Definition propagate_ctx (ctx' : Context) (c : Cmd) : Cmd :=
  match Next c with
  | Some n => set_Next (Some (set_ctx ctx' n)) c
  | None => c
  end.

(** Lines 77-91 together: the receiver as it is when the spawn primitive is
    called. *)
Definition prepare (ctx' : Context) (sp : nat) (c : Cmd) : Cmd :=
  propagate_ctx ctx' (inject_trace_env sp (set_ctx ctx' (wire_stderr c))).

Definition Start (c : Cmd) : M (option Error * Cmd) :=
  match Process (cmd c) with
  | Some _ => ret (Some (errors_New "exec: already started"), c)
  | None =>
      '(ctx', sp) <- tracer_Start (tracer c) (ctx c) "exec:run" (Args (cmd c)) ;;
      let c := prepare ctx' sp c in
      '(err, e) <- exec_Start (cmd c) ;;
      let c := set_cmd e c in
      match err with
      | Some er =>
          span_RecordError (Some sp) er ;;
          span_SetStatus (Some sp) CodeError (Error_msg er) ;;
          span_End (Some sp) ;;
          ret (Some er, c)
      | None =>
          span_SetStatus (Some sp) CodeOk "" ;;
          ret (None, c)
      end
  end.

(** ** [Cmd.Wait] *)

(** Lines 169-178: the underlying wait and the diagnostic log on failure. *)
Definition ownWait (c : Cmd) : M (option Error * Cmd) :=
  '(err, e) <- exec_Wait (cmd c) ;;
  let c := set_cmd e c in
  match err with
  | Some er =>
      let out := strings_Trim (stderr_output (cmd c)) in
      logger_Debug (logger c)
        ("failed to execute `" ++ filepath_Base (Path (cmd c)) ++ "`")%string
        [("exec.error", LVErr er);
         ("exec.exit_code", LVInt (ExitCode (ProcessState (cmd c))));
         ("exec.command", LVStr (exec_String (cmd c)));
         ("exec.output", LVStr out)] ;;
      ret (err, c)
  | None => ret (err, c)
  end.

(** The first deferred function (lines 133-146): exit code, status, end. *)
Definition finishSpan (span : option nat) (c : Cmd) (err : option Error) : M unit :=
  span_SetAttrInt span "exec.exit_code" (ExitCode (ProcessState (cmd c))) ;;
  match err with
  | None => span_SetStatus span CodeOk ""
  | Some er =>
      span_RecordError span er ;;
      span_SetStatus span CodeError (Error_msg er)
  end ;;
  span_End span.

(** The message of line 161. *)
Definition upstream_failed_msg (c : Cmd) : string :=
  "`" ++ exec_String (cmd c) ++ "` exited with code "
      ++ string_of_Z (ExitCode (ProcessState (cmd c))).

(** The error branch of the second deferred function (lines 159-162). *)
Definition markNextFailed (c n : Cmd) : M unit :=
  let nextSpan := SpanFromContext (ctx n) in
  span_SetStatus nextSpan CodeError (upstream_failed_msg c) ;;
  span_End nextSpan.

(** The body of [Wait], with the recursive call on the next stage left
    open.  Deferred functions run in reverse order of registration: the
    closer, then the next stage, then the span. *)
Definition Wait_body (rec : Cmd -> M (option Error * Cmd)) (c : Cmd)
    : M (option Error * Cmd) :=
  match Process (cmd c) with
  | None => ret (Some (errors_New "exec: not started"), c)
  | Some _ =>
  match ProcessState (cmd c) with
  | Some _ => ret (Some (errors_New "exec: Wait was already called"), c)
  | None =>
      let span := SpanFromContext (ctx c) in
      match Next c with
      | Some n =>
          '(serr, n1) <- Start n ;;
          let c1 := set_Next (Some n1) c in
          match serr with
          | Some er =>
              span_End span ;;
              finishSpan span c1 (Some er) ;;
              ret (Some er, c1)
          | None =>
              '(err, c2) <- ownWait c1 ;;
              closer_Close (closer c2) ;;
              '(err', c3) <-
                 match err with
                 | None =>
                     '(r, n2) <- rec n1 ;;
                     ret (r, set_Next (Some n2) c2)
                 | Some _ =>
                     markNextFailed c2 n1 ;;
                     ret (err, c2)
                 end ;;
              finishSpan span c3 err' ;;
              ret (err', c3)
          end
      | None =>
          '(err, c2) <- ownWait c ;;
          closer_Close (closer c2) ;;
          finishSpan span c2 err ;;
          ret (err, c2)
      end
  end
  end.

(** [Wait] recurses once per stage, so unrolling its body as many times as
    the chain is long is enough; [Wait_unfold] below shows that it satisfies
    the equation the source is written as. *)
Definition Wait (c : Cmd) : M (option Error * Cmd) :=
  unroll Wait_body (chain_len c) c.

(** ** [Cmd.Run] *)

Definition Cmd_Run (c : Cmd) : M (option Error * Cmd) :=
  '(err, c) <- Start c ;;
  match err with
  | Some er => ret (Some er, c)
  | None => Wait c
  end.

(** ** Options *)

(** The options of the package.  [Option] has an unexported method, so no
    other option can be written outside the package.  [WithEnvs] carries the
    entries of its map in the order the iteration visits them. *)
Inductive Option : Type :=
| Pipe (name : string) (args : list string)
| WithArgs (args : list string)
| WithEnv (key value : string)
| WithEnvs (envs : list (string * string))
| WithStdin (r : Reader)
| WithStdout (w : Writer)
| WithStderr (w : Writer)
| WithTracer (t : Tracer)
| WithLogger (l : Logger).

Definition env_entry (kv : string * string) : string :=
  (fst kv ++ "=" ++ snd kv)%string.

(** The options that are a direct assignment on the receiver. *)
Definition applySimple (o : Option) (c : Cmd) : Cmd :=
  match o with
  | Pipe _ _ => c
  | WithArgs args => upd_cmd (set_Args (Path (cmd c) :: args)) c
  | WithEnv key value =>
      upd_cmd (set_Env (Env (cmd c) ++ [env_entry (key, value)])) c
  | WithEnvs envs =>
      fold_left (fun c kv => upd_cmd (set_Env (Env (cmd c) ++ [env_entry kv])) c)
                envs c
  | WithStdin r => upd_cmd (set_Stdin r) c
  | WithStdout w => upd_cmd (set_Stdout w) c
  | WithStderr w => upd_cmd (set_Stderr w) c
  | WithTracer t => set_tracer t c
  | WithLogger l => set_logger l c
  end.

(** ** The wiring pass, [setupCmd] *)

(** Lines 265-275: what is copied down to the next stage and what is
    rebound on the current one, for the pipe [p]. *)
Definition wire (p : nat) (c n : Cmd) : Cmd * Cmd :=
  let n := upd_cmd (set_Stdout (Stdout (cmd c))) n in
  let n := upd_cmd (set_Stdin (RPipe p)) n in
  let n := upd_cmd (set_Stderr (Stderr (cmd c))) n in
  let n := upd_cmd (set_Env (Env (cmd c))) n in
  let n := set_tracer (tracer c) n in
  let n := set_logger (logger c) n in
  let c := upd_cmd (set_Stdout (WPipe p)) c in
  let c := set_closer (PipeWriter p) c in
  (c, n).

(** The body of [setupCmd], the recursive call left open.  The Go function
    mutates the chain in place and returns the error; here the updated
    chain is returned with it. *)
Definition setupCmd_body (rec : Cmd -> M (option Error * Cmd)) (c : Cmd)
    : M (option Error * Cmd) :=
  match Err (cmd c) with
  | Some e =>
      logger_Debug (logger c)
        (filepath_Base (Path (cmd c)) ++ " not found")%string [] ;;
      ret (Some e, c)
  | None =>
      match Next c with
      | Some n =>
          '(c1, n1) <-
             match Err (cmd n) with
             | None => p <- io_Pipe ;; ret (wire p c n)
             | Some _ => ret (c, n)
             end ;;
          '(e, n2) <- rec n1 ;;
          ret (e, set_Next (Some n2) c1)
      | None => ret (None, c)
      end
  end.

(** One call per stage again; see [setupCmd_unfold]. *)
Definition setupCmd (c : Cmd) : M (option Error * Cmd) :=
  unroll setupCmd_body (chain_len c) c.

(** ** Construction *)

(** The struct literal of [CommandContext] and the environment
    assignment that follows it. *)
Definition newCmd (ctx0 : Context) (name : string) : M Cmd :=
  buf <- new_id ;;
  ret (upd_cmd (set_Env os_Environ)
         (mkCmd (exec_CommandContext (filepath_Clean name)) None ctx0 buf
                NopCloser NoopTracer NoOpLogger)).

Fixpoint applyOptions (apply : Option -> Cmd -> M Cmd) (opts : list Option)
    (c : Cmd) : M Cmd :=
  match opts with
  | [] => ret c
  | o :: rest => c' <- apply o c ;; applyOptions apply rest c'
  end.

(** [CommandContext], for a given way of applying one option. *)
Definition CommandContext_with (apply : Option -> Cmd -> M Cmd)
    (ctx0 : Context) (name : string) (opts : list Option) : M Cmd :=
  c <- newCmd ctx0 name ;;
  c <- applyOptions apply opts c ;;
  '(e, c) <- setupCmd c ;;
  ret (upd_cmd (set_Err e) c).

(** The closure returned by [Pipe(name, args...)].  The stage it creates is
    built by [CommandContext] with the single option [WithArgs], which
    needs direct assignments only. *)
Fixpoint Pipe_applyOption (name : string) (args : list string) (c : Cmd) : M Cmd :=
  match Next c with
  | None =>
      n <- CommandContext_with (fun o c => ret (applySimple o c))
             (ctx c) name [WithArgs args] ;;
      ret (set_Next (Some n) c)
  | Some n =>
      n' <- Pipe_applyOption name args n ;;
      ret (set_Next (Some n') c)
  end.

Definition applyOption (o : Option) (c : Cmd) : M Cmd :=
  match o with
  | Pipe name args => Pipe_applyOption name args c
  | _ => ret (applySimple o c)
  end.

Definition CommandContext : Context -> string -> list Option -> M Cmd :=
  CommandContext_with applyOption.

Definition Command (name : string) (opts : list Option) : M Cmd :=
  CommandContext context_Background name opts.

Definition RunWithContext (ctx0 : Context) (name : string) (opts : list Option)
    : M (Cmd * option Error) :=
  c <- CommandContext ctx0 name opts ;;
  match Err (cmd c) with
  | Some e =>
      logger_Debug (logger c) (Error_msg e) [] ;;
      ret (c, Some e)
  | None =>
      '(err, c') <- Cmd_Run c ;;
      ret (c', err)
  end.

Definition Run (name : string) (opts : list Option) : M (Cmd * option Error) :=
  RunWithContext context_Background name opts.

End Package.

(** ** Vocabulary of the properties

    Decidable observations on a trace and on a chain, used to state what the
    package guarantees. *)

Definition is_span_end (sp : nat) (ev : Event) : bool :=
  match ev with
  | EvSpanEnd s => Nat.eqb s sp
  | _ => false
  end.

(** How many times [End] was called on the span [sp]. *)
Definition end_count (sp : nat) (tr : list Event) : nat :=
  length (filter (is_span_end sp) tr).

(** The spans opened in a trace, in order. *)
Definition opened_spans (tr : list Event) : list nat :=
  flat_map (fun ev => match ev with
                      | EvSpanStart sp _ _ _ _ => [sp]
                      | _ => []
                      end) tr.

Definition every_span_ended_once (tr : list Event) : bool :=
  forallb (fun sp => Nat.eqb (end_count sp tr) 1) (opened_spans tr).

Definition Closer_eqb (a b : Closer) : bool :=
  match a, b with
  | NopCloser, NopCloser => true
  | PipeWriter x, PipeWriter y => Nat.eqb x y
  | _, _ => false
  end.

Definition is_close (cl : Closer) (ev : Event) : bool :=
  match ev with
  | EvClose c => Closer_eqb c cl
  | _ => false
  end.

(** How many times [Close] was called on [cl]. *)
Definition close_count (cl : Closer) (tr : list Event) : nat :=
  length (filter (is_close cl) tr).

(** The [exec.args] attribute each opened span was tagged with. *)
Definition recorded_args (tr : list Event) : list (list string) :=
  flat_map (fun ev => match ev with
                      | EvSpanStart _ _ _ _ args => [args]
                      | _ => []
                      end) tr.

(** The argument list of each command handed to the spawn primitive. *)
Definition spawned_args (tr : list Event) : list (list string) :=
  flat_map (fun ev => match ev with
                      | EvSpawn e _ => [Args e]
                      | _ => []
                      end) tr.

Definition is_log (ev : Event) : bool :=
  match ev with
  | EvLog _ _ _ => true
  | _ => false
  end.

Definition is_spawn_of (path : string) (ev : Event) : bool :=
  match ev with
  | EvSpawn e _ => String.eqb (Path e) path
  | _ => false
  end.

Definition is_failed_spawn_of (path : string) (ev : Event) : bool :=
  match ev with
  | EvSpawn e (SpawnFailed _) => String.eqb (Path e) path
  | _ => false
  end.

Definition is_wait_of (pid : nat) (ev : Event) : bool :=
  match ev with
  | EvProcWait p _ => Nat.eqb p pid
  | _ => false
  end.

Definition is_successful_wait_of (pid : nat) (ev : Event) : bool :=
  match ev with
  | EvProcWait p (Exited 0 None) => Nat.eqb p pid
  | _ => false
  end.

(** No command with path [path] is handed to the spawn primitive before the
    process [pid] has been waited on with success ([seen] tells whether that
    has happened already). *)
Fixpoint spawned_only_after_success (pid : nat) (path : string) (seen : bool)
    (tr : list Event) : bool :=
  match tr with
  | [] => true
  | ev :: rest =>
      (if is_spawn_of path ev then seen else true)
      && spawned_only_after_success pid path
           (seen || is_successful_wait_of pid ev) rest
  end.

(** The lifecycle [Created -> Started -> Completed]: exit information is
    present only on a descriptor that has a process handle. *)
Definition lifecycle_ok (c : Cmd) : Prop :=
  ProcessState (cmd c) <> None -> Process (cmd c) <> None.

(** A stage has been started and waited on. *)
Definition completed (s : Cmd) : Prop :=
  Process (cmd s) <> None /\ ProcessState (cmd s) <> None.

(** A stage has been started and its wait has returned, or it failed to
    start. *)
Definition stage_drained (tr : list Event) (s : Cmd) : bool :=
  match Process (cmd s) with
  | Some pid => existsb (is_wait_of pid) tr
  | None => false
  end
  || existsb (is_failed_spawn_of (Path (cmd s))) tr.

(** Every stage after the head is drained. *)
Definition downstream_drained (tr : list Event) (c : Cmd) : bool :=
  forallb (stage_drained tr) (tl (nodes c)).

(** In the trace of a [Wait] on [c], the stage after [c] is spawned only
    after the process of [c] has been waited on with success. *)
Definition lazy_downstream_start (c : Cmd) (tr : list Event) : bool :=
  match Process (cmd c), Next c with
  | Some pid, Some n =>
      spawned_only_after_success pid (Path (cmd n)) false tr
  | _, _ => true
  end.

(** Every stage has the tracer and the logger of the head. *)
Definition shares_config (c : Cmd) : Prop :=
  Forall (fun n => tracer n = tracer c /\ logger n = logger c) (nodes c).

(** The stages in front of the first one that carries a construction
    error. *)
Fixpoint error_free_prefix (l : list Cmd) : list Cmd :=
  match l with
  | [] => []
  | n :: rest =>
      match Err (cmd n) with
      | None => n :: error_free_prefix rest
      | Some _ => []
      end
  end.

(** The stages from the first one that carries a construction error
    on. *)
Fixpoint error_tail (l : list Cmd) : list Cmd :=
  match l with
  | [] => []
  | n :: rest =>
      match Err (cmd n) with
      | None => error_tail rest
      | Some _ => l
      end
  end.

(** A stage without its link to the next one. *)
Definition detach (c : Cmd) : Cmd := set_Next None c.

Definition is_Pipe (o : Option) : bool :=
  match o with
  | Pipe _ _ => true
  | _ => false
  end.

(** A computation that writes nothing to the trace but log events. *)
Definition logs_only {A : Type} (m : M A) : Prop :=
  forall w, exists l,
    events (snd (m w)) = events w ++ l /\ forallb is_log l = true.

(** ** Worlds reached by [Start] *)

Definition add_events (w : World) (l : list Event) : World :=
  mkWorld (events w ++ l) (fresh w).

(** The span [Start] opens in the world [w] is numbered [fresh w]. *)
Definition span_event (c : Cmd) (w : World) : Event :=
  EvSpanStart (fresh w) (tracer c) (ctx_span (ctx c)) "exec:run" (Args (cmd c)).

Definition span_ctx (c : Cmd) (w : World) : Context :=
  mkContext (ctx_base (ctx c)) (Some (fresh w)).

Section StartOutcomes.

Context {os : OS}.

(** The receiver as [Start] hands it to the spawn primitive. *)
Definition prepared (c : Cmd) (w : World) : Cmd :=
  prepare (span_ctx c w) (fresh w) c.

(** The trace [Start] leaves when the spawn primitive fails with [er]. *)
Definition failed_start_events (c : Cmd) (w : World) (er : Error) : list Event :=
  [span_event c w;
   EvSpawn (cmd (prepared c w)) (SpawnFailed er);
   EvSpanRecordError (fresh w) er;
   EvSpanSetStatus (fresh w) CodeError (Error_msg er);
   EvSpanEnd (fresh w)].

(** The trace [Start] leaves when the process is spawned. *)
Definition good_start_events (c : Cmd) (w : World) : list Event :=
  [span_event c w;
   EvSpawn (cmd (prepared c w)) (Spawned (S (fresh w)));
   EvSpanSetStatus (fresh w) CodeOk ""].

End StartOutcomes.

(** ** Traces written by [Wait] *)

Definition on_span_events (span : option nat) (f : nat -> list Event) : list Event :=
  match span with
  | Some sp => f sp
  | None => []
  end.

(** The explicit [span.End()] of line 150. *)
Definition end_events (span : option nat) : list Event :=
  on_span_events span (fun sp => [EvSpanEnd sp]).

(** What the first deferred function of [Wait] writes. *)
Definition finish_events (span : option nat) (c : Cmd) (err : option Error)
    : list Event :=
  on_span_events span (fun sp =>
    EvSpanSetAttrInt sp "exec.exit_code" (ExitCode (ProcessState (cmd c)))
    :: match err with
       | None => [EvSpanSetStatus sp CodeOk ""]
       | Some er => [EvSpanRecordError sp er;
                     EvSpanSetStatus sp CodeError (Error_msg er)]
       end
    ++ [EvSpanEnd sp]).

Section WaitOutcomes.

Context {os : OS}.

(** What the error branch of the second deferred function writes. *)
Definition mark_events (c n : Cmd) : list Event :=
  on_span_events (SpanFromContext (ctx n)) (fun sp =>
    [EvSpanSetStatus sp CodeError (upstream_failed_msg c); EvSpanEnd sp]).

(** The diagnostic log event of lines 172-177. *)
Definition failure_log (c : Cmd) (er : Error) : Event :=
  EvLog (logger c)
    ("failed to execute `" ++ filepath_Base (Path (cmd c)) ++ "`")%string
    [("exec.error", LVErr er);
     ("exec.exit_code", LVInt (ExitCode (ProcessState (cmd c))));
     ("exec.command", LVStr (exec_String (cmd c)));
     ("exec.output", LVStr (strings_Trim (stderr_output (cmd c))))].

End WaitOutcomes.

(** ** A concrete platform

    Used to run the model on explicit pipelines.  Every name resolves to
    [/bin/name] except [not_found]; [/bin/broken] resolves but cannot be
    spawned; [/bin/false] exits with status 1, [/bin/grep] with status 2
    and every other process with status 0. *)
Module Fixture.

Fixpoint base_from (acc s : string) : string :=
  match s with
  | EmptyString => acc
  | String a r =>
      if Nat.eqb (nat_of_ascii a) 47 then base_from r r else base_from acc r
  end.

(** [filepath.Base] on slash-separated paths without a trailing slash. *)
Definition Base (s : string) : string := base_from s s.

Definition join (l : list string) : string := String.concat " " l.

(** [String] of [exec.Cmd] as the standard library writes it. *)
Definition render (e : ExecCmd) : string :=
  match Err e with
  | Some _ => join (Args e)
  | None => join (Path e :: tl (Args e))
  end.

Definition LookPath (name : string) : string * option Error :=
  if String.eqb name "not_found"
  then (EmptyString, Some (ExecError name ErrNotFound))
  else (("/bin/" ++ name)%string, None).

Definition spawn (e : ExecCmd) : option Error :=
  if String.eqb (Path e) "/bin/broken"
  then Some (ErrorString "fork/exec /bin/broken: permission denied")
  else None.

Definition wait (e : ExecCmd) : WaitOutcome :=
  if String.eqb (Path e) "/bin/false" then Exited 1 None
  else if String.eqb (Path e) "/bin/grep" then Exited 2 None
  else Exited 0 None.

#[export] Instance os : OS := {|
  exec_LookPath := LookPath;
  os_Environ := ["PATH=/bin"];
  filepath_Clean := fun s => s;
  filepath_Base := Base;
  exec_String := render;
  os_spawn := spawn;
  os_wait := wait;
  stderr_output := fun _ => EmptyString;
  TraceID_String := fun n => string_of_Z (Z.of_nat n);
  SpanID_String := fun n => string_of_Z (Z.of_nat n)
|}.

Definition w0 : World := mkWorld [] 0.

End Fixture.

Module Inputs.
Import Fixture.

(** [echo 'hello world'] as [Command] returns it, once started, and once
    waited on. *)
Definition echo_exec (p : option nat) (st : option Z) : ExecCmd :=
  mkExecCmd "/bin/echo" ["/bin/echo"; "hello world"] ["PATH=/bin"]
            RNil WNil WNil None p st.

Definition echo_created : Cmd :=
  mkCmd (echo_exec None None) None context_Background 0 NopCloser
        NoopTracer NoOpLogger.

Definition echo_started : Cmd :=
  mkCmd (echo_exec (Some 2) None) None (mkContext 0 (Some 1)) 0 NopCloser
        NoopTracer NoOpLogger.

Definition echo_waited : Cmd :=
  mkCmd (echo_exec (Some 2) (Some 0%Z)) None (mkContext 0 (Some 1)) 0
        NopCloser NoopTracer NoOpLogger.

(** A descriptor whose executable resolves but cannot be spawned. *)
Definition broken_created : Cmd :=
  mkCmd (mkExecCmd "/bin/broken" ["/bin/broken"] ["PATH=/bin"]
                   RNil WNil (WUser 7) None None None)
        None context_Background 0 NopCloser (UserTracer 1) NoOpLogger.

(** [echo hello c d] with a tracer of the caller, as [Command] returns it
    when the options [extra] follow the two that set it up. *)
Definition echo_with (extra : list Option) : Cmd * World :=
  Command "echo"
          (WithArgs ["hello"; "c"; "d"] :: WithTracer (UserTracer 1) :: extra)
          w0.

(** A pipeline as [Command] builds it and [Start] starts it. *)
Definition started (name : string) (opts : list Option) : Cmd * World :=
  let '(c, w) := Command name opts w0 in
  let '(_, c', w') := Start c w in
  (c', w').

(** [false | echo a | sed x]: the head exits with status 1. *)
Definition failing_head : Cmd * World :=
  started "false" [WithTracer (UserTracer 1); Pipe "echo" ["a"]; Pipe "sed" ["x"]].

(** [echo a | sed x]: both stages exit with status 0. *)
Definition two_stages : Cmd * World :=
  started "echo" [WithArgs ["a"]; WithTracer (UserTracer 1); Pipe "sed" ["x"]].

(** [echo a | broken]: the second stage cannot be spawned. *)
Definition broken_next : Cmd * World :=
  started "echo" [WithArgs ["a"]; WithTracer (UserTracer 1); Pipe "broken" []].

(** The stage after the head, or the head itself when there is none. *)
Definition next_of (c : Cmd) : Cmd :=
  match Next c with
  | Some n => n
  | None => c
  end.

(** [echo | not_found | sed x] with a tracer and a logger of the caller. *)
Definition unresolved_middle : Cmd * World :=
  Command "echo" [WithTracer (UserTracer 1); WithLogger (UserLogger 1);
                  Pipe "not_found" []; Pipe "sed" ["x"]] w0.

End Inputs.

(** ** Further vocabulary: construction and traces *)

(** The first element that is present. *)
Fixpoint first_some {A : Type} (l : list (option A)) : option A :=
  match l with
  | [] => None
  | Some a :: _ => Some a
  | None :: rest => first_some rest
  end.

(** The construction errors along a chain, head first. *)
Definition errs (c : Cmd) : list (option Error) :=
  map (fun n => Err (cmd n)) (nodes c).

(** The names given to the [Pipe] options, in order. *)
Definition pipe_names (opts : list Option) : list string :=
  flat_map (fun o => match o with
                     | Pipe name _ => [name]
                     | _ => []
                     end) opts.

(** The entries the environment options append, in order. *)
Definition env_of_options (opts : list Option) : list string :=
  flat_map (fun o => match o with
                     | WithEnv key value => [env_entry (key, value)]
                     | WithEnvs envs => map env_entry envs
                     | _ => []
                     end) opts.

(** The arguments of the last [WithArgs] option, if there is one. *)
Definition last_args (opts : list Option) : option (list string) :=
  fold_left (fun acc o => match o with
                          | WithArgs args => Some args
                          | _ => acc
                          end) opts None.

Definition last_tracer (opts : list Option) : Tracer :=
  fold_left (fun acc o => match o with
                          | WithTracer t => t
                          | _ => acc
                          end) opts NoopTracer.

Definition last_logger (opts : list Option) : Logger :=
  fold_left (fun acc o => match o with
                          | WithLogger l => l
                          | _ => acc
                          end) opts NoOpLogger.

(** The stdio options, the last of each kind winning. *)
Definition last_stdout (opts : list Option) : Writer :=
  fold_left (fun acc o => match o with
                          | WithStdout w => w
                          | _ => acc
                          end) opts WNil.

(** Consecutive stages are joined by a pipe: the write end is the output
    sink and the closer of the first, the read end the input source of the
    second.  The pipes are numbered from [lo] upwards along the chain, so
    no two pairs share one. *)
Fixpoint linked_from (lo : nat) (l : list Cmd) : Prop :=
  match l with
  | a :: (b :: _) as rest =>
      exists p, lo <= p
        /\ Stdout (cmd a) = WPipe p /\ closer a = PipeWriter p
        /\ Stdin (cmd b) = RPipe p
        /\ linked_from (S p) rest
  | _ => True
  end.

Definition count_events (f : Event -> bool) (l : list Event) : nat :=
  length (filter f l).

Definition is_any_close (ev : Event) : bool :=
  match ev with
  | EvClose _ => true
  | _ => false
  end.

Definition is_any_wait (ev : Event) : bool :=
  match ev with
  | EvProcWait _ _ => true
  | _ => false
  end.

Definition is_any_spawn (ev : Event) : bool :=
  match ev with
  | EvSpawn _ _ => true
  | _ => false
  end.

(** An underlying wait that did not report a clean exit. *)
Definition is_failed_wait (ev : Event) : bool :=
  match ev with
  | EvProcWait _ (Exited 0 None) => false
  | EvProcWait _ _ => true
  | _ => false
  end.

(** After an underlying wait that failed, nothing is spawned and nothing
    is waited on. *)
Fixpoint quiet_after_failure (l : list Event) : bool :=
  match l with
  | [] => true
  | ev :: rest =>
      (if is_failed_wait ev
       then forallb (fun e => negb (is_any_spawn e || is_any_wait e)) rest
       else true)
      && quiet_after_failure rest
  end.

(** Events that are neither a spawn, nor a wait, nor a close. *)
Definition silent (l : list Event) : Prop :=
  forallb (fun e => negb (is_any_spawn e || is_any_wait e || is_any_close e)) l
  = true.

Definition is_failed_spawn (ev : Event) : bool :=
  match ev with
  | EvSpawn _ (SpawnFailed _) => true
  | _ => false
  end.

(** The last stage of a chain. *)
Fixpoint tail_stage (c : Cmd) : Cmd :=
  match Next c with
  | Some n => tail_stage n
  | None => c
  end.

(** What an operation that turns [c] into [c'] keeps of the lifecycle: the
    process handle and the exit information that were there, and exit
    information only on a descriptor with a handle. *)
Definition lifecycle_kept (c c' : Cmd) : Prop :=
  (forall p, Process (cmd c) = Some p -> Process (cmd c') = Some p)
  /\ (forall s, ProcessState (cmd c) = Some s -> ProcessState (cmd c') = Some s)
  /\ (lifecycle_ok c -> lifecycle_ok c').

Section ConstructionVocabulary.

Context {os : OS}.

(** The error, if any, of resolving [name] at construction. *)
Definition resolve (name : string) : option Error :=
  Err (exec_CommandContext (filepath_Clean name)).

(** The head as [CommandContext] creates it, before any option. *)
Definition initial_cmd (name : string) : ExecCmd :=
  set_Env os_Environ (exec_CommandContext (filepath_Clean name)).

End ConstructionVocabulary.

(** * Properties *)

(** Unfolds the monad around a goal or a hypothesis. *)
Ltac munfold :=
  cbv beta iota zeta delta
    [bind ret emit new_id on_span span_SetAttrInt span_SetStatus
     span_RecordError span_End logger_Debug closer_Close io_Pipe
     tracer_Start] in *.

Section Lifecycle.

Context {os : OS}.

Lemma chain_len_pos (c : Cmd) : 1 <= chain_len c.
Proof. destruct c as [e [n|] x b cl t l]; simpl; lia. Qed.

Lemma chain_len_set_ctx (x : Context) (c : Cmd) :
  chain_len (set_ctx x c) = chain_len c.
Proof. destruct c as [e [n|] y b cl t l]; reflexivity. Qed.

Lemma chain_len_Next (c n : Cmd) :
  Next c = Some n -> chain_len c = S (chain_len n).
Proof. destruct c as [e [m|] y b cl t l]; simpl; congruence. Qed.

Lemma set_cmd_same (c : Cmd) : set_cmd (cmd c) c = c.
Proof. now destruct c. Qed.

Lemma set_Next_same (c : Cmd) : set_Next (Next c) c = c.
Proof. now destruct c. Qed.

Lemma Process_prepare (x : Context) (sp : nat) (c : Cmd) :
  Process (cmd (prepare x sp c)) = Process (cmd c).
Proof.
  unfold prepare, propagate_ctx, inject_trace_env, wire_stderr.
  destruct c as [e [n|] y b cl t l]; simpl; destruct (Stderr e); reflexivity.
Qed.

Lemma Next_prepare (x : Context) (sp : nat) (c : Cmd) :
  Next (prepare x sp c) = option_map (set_ctx x) (Next c).
Proof.
  unfold prepare, propagate_ctx, inject_trace_env, wire_stderr.
  destruct c as [e [n|] y b cl t l]; simpl; destruct (Stderr e); reflexivity.
Qed.

(** The two ways [Start] ends once it is past its guard. *)
Lemma Start_cases (c : Cmd) (w : World) :
  Process (cmd c) = None ->
  (exists er,
     Start c w = (Some er, prepared c w,
                  add_events (mkWorld (events w) (S (fresh w)))
                             (failed_start_events c w er)))
  \/ Start c w = (None,
                  upd_cmd (set_Process (Some (S (fresh w)))) (prepared c w),
                  add_events (mkWorld (events w) (S (S (fresh w))))
                             (good_start_events c w)).
Proof.
  intros HP. unfold Start. rewrite HP. munfold. cbn [fresh events].
  fold (span_ctx c w). fold (prepared c w). fold (span_event c w).
  unfold exec_Start.
  replace (Process (cmd (prepared c w))) with (@None nat)
    by (symmetry; unfold prepared; now rewrite Process_prepare).
  destruct (Err (cmd (prepared c w))) as [er|].
  { left. exists er. munfold. cbn. rewrite set_cmd_same.
    unfold add_events, failed_start_events. cbn. now rewrite <- !app_assoc. }
  destruct (os_spawn (cmd (prepared c w))) as [er|].
  { left. exists er. munfold. cbn. rewrite set_cmd_same.
    unfold add_events, failed_start_events. cbn. now rewrite <- !app_assoc. }
  right. munfold. cbn.
  unfold add_events, good_start_events, upd_cmd. cbn. now rewrite <- !app_assoc.
Qed.

Lemma Start_chain_len (c : Cmd) (w : World) :
  chain_len (snd (fst (Start c w))) = chain_len c.
Proof.
  destruct (Process (cmd c)) eqn:HP.
  { unfold Start. now rewrite HP. }
  assert (HN : chain_len (prepared c w) = chain_len c).
  { unfold prepared.
    generalize (Next_prepare (span_ctx c w) (fresh w) c).
    destruct (prepare (span_ctx c w) (fresh w) c) as [e' n' y' b' cl' t' l'].
    destruct c as [e [n|] y b cl t l]; simpl; intros ->; simpl;
      [now destruct n as [? [?|] ? ? ? ? ?] | reflexivity]. }
  destruct (Start_cases c w HP) as [[er ->] | ->]; simpl; [exact HN|].
  rewrite <- HN. now destruct (prepared c w) as [e' [n'|] y' b' cl' t' l'].
Qed.

(** *** The recursive equations of [Wait] and [setupCmd] *)

Section Unroll.

Variable body : (Cmd -> M (option Error * Cmd)) -> Cmd -> M (option Error * Cmd).

Hypothesis body_ext : forall r1 r2 c w,
  (forall n w', chain_len n < chain_len c -> r1 n w' = r2 n w') ->
  body r1 c w = body r2 c w.

Lemma unroll_enough (k1 : nat) :
  forall k2 c w, chain_len c <= k1 -> chain_len c <= k2 ->
    unroll body k1 c w = unroll body k2 c w.
Proof.
  induction k1 as [|k1 IH]; intros k2 c w H1 H2.
  - pose proof (chain_len_pos c). lia.
  - destruct k2 as [|k2]; [pose proof (chain_len_pos c); lia|].
    simpl. apply body_ext. intros n w' Hn. apply IH; lia.
Qed.

Lemma unroll_unfold (c : Cmd) (w : World) :
  unroll body (chain_len c) c w
  = body (fun n => unroll body (chain_len n) n) c w.
Proof.
  pose proof (chain_len_pos c) as Hp.
  destruct (chain_len c) as [|k] eqn:E; [lia|].
  simpl. apply body_ext. intros n w' Hn. apply unroll_enough; lia.
Qed.

End Unroll.

Lemma Wait_body_ext (r1 r2 : Cmd -> M (option Error * Cmd)) (c : Cmd) (w : World) :
  (forall n w', chain_len n < chain_len c -> r1 n w' = r2 n w') ->
  Wait_body r1 c w = Wait_body r2 c w.
Proof.
  intros H. unfold Wait_body.
  destruct (Process (cmd c)) as [pid|]; [|reflexivity].
  destruct (ProcessState (cmd c)) as [st|]; [reflexivity|].
  destruct (Next c) as [n|] eqn:EN; [|reflexivity].
  cbv beta iota zeta delta [bind ret].
  pose proof (Start_chain_len n w) as HL.
  destruct (Start n w) as [[serr n1] w1]. simpl in HL.
  destruct serr; [reflexivity|].
  destruct (ownWait (set_Next (Some n1) c) w1) as [[err c2] w2].
  destruct (closer_Close (closer c2) w2) as [u w3].
  destruct err; [reflexivity|].
  rewrite H; [reflexivity|].
  rewrite (chain_len_Next c n EN). lia.
Qed.

(** [Wait] satisfies the recursive equation of the source. *)
Lemma Wait_unfold (c : Cmd) (w : World) : Wait c w = Wait_body Wait c w.
Proof. exact (unroll_unfold Wait_body Wait_body_ext c w). Qed.


(** *** Fields across [prepare] *)

Lemma Env_prepare (x : Context) (sp : nat) (c : Cmd) :
  Env (cmd (prepare x sp c)) = Env (cmd c) ++ trace_env sp.
Proof.
  unfold prepare, propagate_ctx, inject_trace_env, wire_stderr.
  destruct c as [e [n|] y b cl t l]; simpl; destruct (Stderr e); reflexivity.
Qed.

Lemma Args_prepare (x : Context) (sp : nat) (c : Cmd) :
  Args (cmd (prepare x sp c)) = Args (cmd c).
Proof.
  unfold prepare, propagate_ctx, inject_trace_env, wire_stderr.
  destruct c as [e [n|] y b cl t l]; simpl; destruct (Stderr e); reflexivity.
Qed.

Lemma Stderr_prepare (x : Context) (sp : nat) (c : Cmd) :
  Stderr (cmd (prepare x sp c)) = Stderr (cmd (wire_stderr c)).
Proof.
  unfold prepare, propagate_ctx, inject_trace_env, wire_stderr.
  destruct c as [e [n|] y b cl t l]; simpl; destruct (Stderr e); reflexivity.
Qed.

Lemma ctx_prepare (x : Context) (sp : nat) (c : Cmd) :
  ctx (prepare x sp c) = x.
Proof.
  unfold prepare, propagate_ctx, inject_trace_env, wire_stderr.
  destruct c as [e [n|] y b cl t l]; simpl; destruct (Stderr e); reflexivity.
Qed.

Lemma stdErr_prepare (x : Context) (sp : nat) (c : Cmd) :
  stdErr (prepare x sp c) = stdErr c.
Proof.
  unfold prepare, propagate_ctx, inject_trace_env, wire_stderr.
  destruct c as [e [n|] y b cl t l]; simpl; destruct (Stderr e); reflexivity.
Qed.

Lemma ProcessState_prepare (x : Context) (sp : nat) (c : Cmd) :
  ProcessState (cmd (prepare x sp c)) = ProcessState (cmd c).
Proof.
  unfold prepare, propagate_ctx, inject_trace_env, wire_stderr.
  destruct c as [e [n|] y b cl t l]; simpl; destruct (Stderr e); reflexivity.
Qed.

(** Once wired, the stderr sink is never nil again, so wiring it a second
    time wraps it. *)
Lemma wire_stderr_twice (c : Cmd) :
  Stderr (cmd (wire_stderr c)) <> WNil
  /\ forall c', Stderr (cmd c') = Stderr (cmd (wire_stderr c)) ->
       Stderr (cmd (wire_stderr c'))
       = io_MultiWriter [WBuffer (stdErr c'); Stderr (cmd c')].
Proof.
  unfold wire_stderr. split.
  - destruct (Stderr (cmd c)); discriminate.
  - intros c' H. rewrite H. destruct (Stderr (cmd c)); reflexivity.
Qed.

(** What [Start] writes to the trace names the argument list as it is. *)
Lemma Start_trace (c : Cmd) (w : World) :
  Process (cmd c) = None ->
  exists l, events (snd (Start c w)) = events w ++ l
    /\ recorded_args l = [Args (cmd c)]
    /\ spawned_args l = [Args (cmd c)].
Proof.
  intros HP.
  destruct (Start_cases c w HP) as [[er ->] | ->]; simpl;
    eexists; (split; [reflexivity|]); simpl;
    unfold prepared; now rewrite Args_prepare.
Qed.

(** *** The guards *)

Lemma Start_already_started (c : Cmd) (w : World) :
  Process (cmd c) <> None ->
  Start c w = (Some (errors_New "exec: already started"), c, w).
Proof.
  intros H. unfold Start. destruct (Process (cmd c)); [reflexivity|easy].
Qed.

Lemma Wait_not_started (c : Cmd) (w : World) :
  Process (cmd c) = None ->
  Wait c w = (Some (errors_New "exec: not started"), c, w).
Proof. intros H. rewrite Wait_unfold. unfold Wait_body. now rewrite H. Qed.

Lemma Wait_already_called (c : Cmd) (w : World) :
  Process (cmd c) <> None -> ProcessState (cmd c) <> None ->
  Wait c w = (Some (errors_New "exec: Wait was already called"), c, w).
Proof.
  intros H1 H2. rewrite Wait_unfold. unfold Wait_body.
  destruct (Process (cmd c)); [|easy].
  destruct (ProcessState (cmd c)); [reflexivity|easy].
Qed.

(** C2: the lifecycle guards.  [Start] on a descriptor that has a process
    handle returns "exec: already started"; [Wait] on a descriptor without a
    process handle returns "exec: not started"; [Wait] on a started
    descriptor whose exit information is present returns "exec: Wait was
    already called" (exit information is only ever recorded on a started
    descriptor, and the not-started guard is tested first, so the two
    conditions do not overlap); the two errors differ; and in all three
    cases the descriptor and the world, hence the trace of spans, are
    returned unchanged. *)
Theorem lifecycle_guards (c : Cmd) (w : World) :
  (Process (cmd c) <> None ->
     Start c w = (Some (errors_New "exec: already started"), c, w))
  /\ (Process (cmd c) = None ->
     Wait c w = (Some (errors_New "exec: not started"), c, w))
  /\ (Process (cmd c) <> None -> ProcessState (cmd c) <> None ->
     Wait c w = (Some (errors_New "exec: Wait was already called"), c, w))
  /\ errors_New "exec: not started"
     <> errors_New "exec: Wait was already called".
Proof.
  repeat split.
  - apply Start_already_started.
  - apply Wait_not_started.
  - apply Wait_already_called.
  - discriminate.
Qed.

(** C10: a [Start] that passes its guard and whose spawn fails returns the
    spawn error and leaves the descriptor changed: no process handle, the
    two trace entries appended to the environment, stderr rewired towards
    the private buffer, the span-bearing context stored.  Starting it again
    appends a second pair of entries and wraps the stderr sink once
    more. *)
Theorem Start_spawn_failure_is_durable (c : Cmd) (w : World) (e : Error)
    (c1 : Cmd) (w1 : World) :
  Process (cmd c) = None ->
  Start c w = (Some e, c1, w1) ->
  In (EvSpawn (cmd c1) (SpawnFailed e)) (events w1)
  /\ Process (cmd c1) = None
  /\ Env (cmd c1) = Env (cmd c) ++ trace_env (fresh w)
  /\ Stderr (cmd c1)
     = match Stderr (cmd c) with
       | WNil => WBuffer (stdErr c)
       | s => io_MultiWriter [WBuffer (stdErr c); s]
       end
  /\ ctx c1 = span_ctx c w
  /\ c1 <> c
  /\ forall r c2 w2, Start c1 w1 = (r, c2, w2) ->
       Env (cmd c2)
       = (Env (cmd c) ++ trace_env (fresh w)) ++ trace_env (fresh w1)
       /\ Stderr (cmd c2)
          = io_MultiWriter [WBuffer (stdErr c); Stderr (cmd c1)].
Proof.
  intros HP HS.
  destruct (Start_cases c w HP) as [[er E] | E]; rewrite E in HS;
    [|discriminate].
  injection HS as <- <- <-.
  assert (HP1 : Process (cmd (prepared c w)) = None)
    by (unfold prepared; now rewrite Process_prepare).
  assert (HE : Env (cmd (prepared c w)) = Env (cmd c) ++ trace_env (fresh w))
    by (unfold prepared; now rewrite Env_prepare).
  repeat match goal with |- _ /\ _ => split end.
  - simpl. apply in_or_app. right. simpl. auto.
  - exact HP1.
  - exact HE.
  - unfold prepared. rewrite Stderr_prepare. unfold wire_stderr.
    now destruct (Stderr (cmd c)).
  - unfold prepared. now rewrite ctx_prepare.
  - intros H. rewrite H in HE. apply (f_equal (@length string)) in HE.
    rewrite length_app in HE. simpl in HE. lia.
  - intros r c2 w2 H.
    match type of H with Start _ ?w' = _ => set (w1 := w') in * end.
    destruct (wire_stderr_twice c) as [_ HW].
    assert (HS1 : Stderr (cmd (prepared c w)) = Stderr (cmd (wire_stderr c)))
      by (unfold prepared; now rewrite Stderr_prepare).
    specialize (HW _ HS1).
    assert (Hb : stdErr (prepared c w) = stdErr c)
      by (unfold prepared; now rewrite stdErr_prepare).
    rewrite Hb in HW.
    destruct (Start_cases (prepared c w) w1 HP1) as [[er' E'] | E'];
      rewrite E' in H; injection H as <- <- <-; unfold prepared at 1 3;
      cbn [cmd upd_cmd set_cmd set_Process Env Stderr];
      rewrite Env_prepare, Stderr_prepare, HE; now split.
Qed.

End Lifecycle.

Section Waiting.

Context {os : OS}.

Lemma add_events_app (w : World) (l1 l2 : list Event) :
  add_events (add_events w l1) l2 = add_events w (l1 ++ l2).
Proof. unfold add_events. simpl. now rewrite app_assoc. Qed.

Lemma add_events_nil (w : World) : add_events w [] = w.
Proof. destruct w. unfold add_events. simpl. now rewrite app_nil_r. Qed.

Lemma finishSpan_run (span : option nat) (c : Cmd) (err : option Error) (w : World) :
  finishSpan span c err w = (tt, add_events w (finish_events span c err)).
Proof.
  unfold finishSpan, finish_events, on_span_events.
  destruct span as [sp|], err as [er|]; munfold; unfold add_events; simpl;
    rewrite <- ?app_assoc; try reflexivity;
    destruct w; simpl; now rewrite app_nil_r.
Qed.

Lemma markNextFailed_run (c n : Cmd) (w : World) :
  markNextFailed c n w = (tt, add_events w (mark_events c n)).
Proof.
  unfold markNextFailed, mark_events, on_span_events.
  destruct (SpanFromContext (ctx n)); munfold; unfold add_events; simpl;
    rewrite <- ?app_assoc; try reflexivity.
  destruct w; simpl; now rewrite app_nil_r.
Qed.

Lemma span_End_run (span : option nat) (w : World) :
  span_End span w = (tt, add_events w (end_events span)).
Proof.
  unfold end_events, on_span_events. destruct span; munfold; [reflexivity|].
  now rewrite add_events_nil.
Qed.

(** The underlying wait of a started, not yet waited descriptor. *)
Lemma ownWait_run (c : Cmd) (w : World) (pid : nat) :
  Process (cmd c) = Some pid -> ProcessState (cmd c) = None ->
  ownWait c w =
    match os_wait (cmd c) with
    | Exited code copyErr =>
        let c2 := upd_cmd (set_ProcessState (Some code)) c in
        let err := if (code =? 0)%Z then copyErr else Some (ExitError code) in
        (err, c2,
         add_events w (EvProcWait pid (os_wait (cmd c))
                       :: match err with
                          | Some er => [failure_log c2 er]
                          | None => []
                          end))
    | WaitFailed er =>
        (Some er, c,
         add_events w [EvProcWait pid (os_wait (cmd c)); failure_log c er])
    end.
Proof.
  intros HP HS. unfold ownWait, exec_Wait. rewrite HP, HS. munfold.
  destruct (os_wait (cmd c)) as [code copyErr|er]; cbn [events fresh].
  - destruct (if (code =? 0)%Z then copyErr else Some (ExitError code));
      unfold add_events, failure_log, upd_cmd; cbn;
      rewrite <- ?app_assoc; reflexivity.
  - rewrite set_cmd_same. unfold add_events, failure_log. cbn.
    rewrite <- ?app_assoc; reflexivity.
Qed.

(** [Wait] past its guards, with the state passed explicitly and the
    deferred functions in the order they run. *)
Lemma Wait_run (c : Cmd) (w : World) (pid : nat) :
  Process (cmd c) = Some pid -> ProcessState (cmd c) = None ->
  Wait c w =
    let span := SpanFromContext (ctx c) in
    match Next c with
    | None =>
        let '(err, c2, w2) := ownWait c w in
        (err, c2,
         add_events w2 (EvClose (closer c2) :: finish_events span c2 err))
    | Some n =>
        let '(serr, n1, w1) := Start n w in
        let c1 := set_Next (Some n1) c in
        match serr with
        | Some er =>
            (Some er, c1,
             add_events w1 (end_events span ++ finish_events span c1 (Some er)))
        | None =>
            let '(err, c2, w2) := ownWait c1 w1 in
            match err with
            | Some er =>
                (Some er, c2,
                 add_events w2 (EvClose (closer c2) :: mark_events c2 n1
                                ++ finish_events span c2 (Some er)))
            | None =>
                let '(r, n2, w4) :=
                  Wait n1 (add_events w2 [EvClose (closer c2)]) in
                let c3 := set_Next (Some n2) c2 in
                (r, c3, add_events w4 (finish_events span c3 r))
            end
        end
    end.
Proof.
  intros HP HS. rewrite Wait_unfold. unfold Wait_body. rewrite HP, HS.
  destruct (Next c) as [n|].
  - cbv beta iota zeta delta [bind ret].
    destruct (Start n w) as [[serr n1] w1].
    destruct serr as [er|].
    + rewrite span_End_run, finishSpan_run. now rewrite add_events_app.
    + destruct (ownWait (set_Next (Some n1) c) w1) as [[err c2] w2].
      unfold closer_Close, emit. fold (add_events w2 [EvClose (closer c2)]).
      destruct err as [er|].
      * rewrite markNextFailed_run, finishSpan_run.
        now rewrite !add_events_app.
      * destruct (Wait n1 (add_events w2 [EvClose (closer c2)])) as [[r n2] w4].
        now rewrite finishSpan_run.
  - cbv beta iota zeta delta [bind ret].
    destruct (ownWait c w) as [[err c2] w2].
    unfold closer_Close, emit. fold (add_events w2 [EvClose (closer c2)]).
    rewrite finishSpan_run. now rewrite add_events_app.
Qed.


(** The early return of lines 149-153, when the next stage fails to start:
    the span is ended by line 150 and again by the deferred function, the
    underlying wait is not called, and the deferred [Close] of line 167 is
    not yet registered. *)
Lemma Wait_when_next_start_fails (c n : Cmd) (w : World) (pid : nat)
    (er : Error) (n1 : Cmd) (w1 : World) :
  Next c = Some n -> Process (cmd c) = Some pid -> ProcessState (cmd c) = None ->
  Start n w = (Some er, n1, w1) ->
  let span := SpanFromContext (ctx c) in
  let c1 := set_Next (Some n1) c in
  Wait c w
  = (Some er, c1,
     add_events w1 (end_events span ++ finish_events span c1 (Some er)))
  /\ close_count (closer c)
       (end_events span ++ finish_events span c1 (Some er)) = 0
  /\ forall sp, span = Some sp ->
       end_count sp (end_events span ++ finish_events span c1 (Some er)) = 2.
Proof.
  intros EN HP HS ES. cbv zeta.
  rewrite (Wait_run c w pid HP HS). cbv zeta. rewrite EN, ES.
  split; [reflexivity|]. unfold end_events, finish_events, on_span_events.
  split.
  - now destruct (SpanFromContext (ctx c)).
  - intros sp ->. unfold end_count. cbn. now rewrite Nat.eqb_refl.
Qed.

(** *** Facts about a successful [Start] *)

Lemma Start_success (n : Cmd) (w : World) (n1 : Cmd) (w1 : World) :
  Start n w = (None, n1, w1) ->
  Process (cmd n) = None
  /\ n1 = upd_cmd (set_Process (Some (S (fresh w)))) (prepared n w)
  /\ w1 = add_events (mkWorld (events w) (S (S (fresh w))))
                     (good_start_events n w).
Proof.
  intros H. destruct (Process (cmd n)) as [p|] eqn:HP.
  { unfold Start in H. rewrite HP in H. discriminate. }
  destruct (Start_cases n w HP) as [[er E] | E]; rewrite E in H;
    [discriminate|]. now injection H as <- <-.
Qed.

Lemma Start_extends (n : Cmd) (w : World) :
  exists l, events (snd (Start n w)) = events w ++ l.
Proof.
  destruct (Process (cmd n)) as [p|] eqn:HP.
  { unfold Start. rewrite HP. exists []. simpl. now rewrite app_nil_r. }
  destruct (Start_cases n w HP) as [[er ->] | ->]; simpl; now eexists.
Qed.

Lemma nodes_set_ctx (x : Context) (c : Cmd) :
  map cmd (nodes (set_ctx x c)) = map cmd (nodes c).
Proof. destruct c as [e [n|] y b cl t l]; reflexivity. Qed.

(** When the head's [Wait] returns nil, every stage has been started and
    waited on. *)
Lemma Wait_success_completes (k : nat) :
  forall c w pid, chain_len c <= k ->
    Process (cmd c) = Some pid -> ProcessState (cmd c) = None ->
    fst (fst (Wait c w)) = None ->
    Forall completed (nodes (snd (fst (Wait c w)))).
Proof.
  induction k as [|k IH]; intros c w pid Hk HP HS.
  { pose proof (chain_len_pos c). lia. }
  rewrite (Wait_run c w pid HP HS). cbv zeta.
  destruct (Next c) as [n|] eqn:EN.
  - destruct (Start n w) as [[serr n1] w1] eqn:ES.
    destruct serr as [er|]; [discriminate|].
    assert (HL : chain_len n1 <= k).
    { pose proof (Start_chain_len n w) as HL. rewrite ES in HL. simpl in HL.
      rewrite (chain_len_Next c n EN) in Hk. lia. }
    destruct (Start_success n w n1 w1 ES) as (HPn & -> & ->).
    set (n1 := upd_cmd _ (prepared n w)) in *.
    set (w1 := add_events _ (good_start_events n w)) in *.
    rewrite (ownWait_run (set_Next (Some n1) c) w1 pid HP HS).
    cbn [cmd set_Next].
    destruct (os_wait (cmd c)) as [code copyErr|er]; [|discriminate].
    cbv zeta.
    destruct (if (code =? 0)%Z then copyErr else Some (ExitError code));
      [discriminate|].
    match goal with |- context [Wait n1 ?w'] => set (w3 := w') end.
    destruct (ProcessState (cmd n1)) as [st|] eqn:HSn.
    + rewrite Wait_already_called; [discriminate| |congruence].
      subst n1. discriminate.
    + specialize (IH n1 w3 (S (fresh w)) HL eq_refl HSn).
      destruct (Wait n1 w3) as [[r n2] w4]. simpl in *. intros Hr.
      constructor; [|now apply IH].
      split; simpl; [rewrite HP|]; discriminate.
  - rewrite (ownWait_run c w pid HP HS).
    destruct (os_wait (cmd c)) as [code copyErr|er]; [|discriminate].
    cbv zeta.
    destruct (if (code =? 0)%Z then copyErr else Some (ExitError code));
      [discriminate|].
    simpl. intros _. rewrite EN. constructor; [|constructor].
    split; simpl; [rewrite HP|]; discriminate.
Qed.


Lemma ownWait_frame (c : Cmd) (w : World) (pid : nat) :
  Process (cmd c) = Some pid -> ProcessState (cmd c) = None ->
  forall err c2 w2, ownWait c w = (err, c2, w2) ->
    closer c2 = closer c /\ Next c2 = Next c /\ ctx c2 = ctx c
    /\ Process (cmd c2) = Some pid
    /\ exists l, events w2 = events w ++ EvProcWait pid (os_wait (cmd c)) :: l
                 /\ forallb is_log l = true.
Proof.
  intros HP HS err c2 w2. rewrite (ownWait_run c w pid HP HS).
  destruct (os_wait (cmd c)) as [code copyErr|er]; cbv zeta.
  - intros [= <- <- <-]. repeat split; try assumption.
    destruct (if (code =? 0)%Z then copyErr else Some (ExitError code));
      now eexists.
  - intros [= <- <- <-]. repeat split; try assumption. now eexists.
Qed.

Lemma Wait_guarded (c : Cmd) (w : World) :
  (Process (cmd c) = None \/ ProcessState (cmd c) <> None) ->
  snd (Wait c w) = w.
Proof.
  intros H. destruct (Process (cmd c)) eqn:HP.
  - destruct H as [H|H]; [discriminate|].
    rewrite Wait_already_called; [reflexivity| |exact H]. congruence.
  - now rewrite Wait_not_started.
Qed.

(** [Wait] only ever adds to the trace. *)
Lemma Wait_extends_bounded (k : nat) :
  forall c w, chain_len c <= k ->
    exists l, events (snd (Wait c w)) = events w ++ l.
Proof.
  induction k as [|k IH]; intros c w Hk.
  { pose proof (chain_len_pos c). lia. }
  destruct (Process (cmd c)) as [pid|] eqn:HP;
    [|rewrite Wait_guarded; [exists []; now rewrite app_nil_r | now left]].
  destruct (ProcessState (cmd c)) as [st|] eqn:HS;
    [rewrite Wait_guarded; [exists []; now rewrite app_nil_r | right; congruence]|].
  rewrite (Wait_run c w pid HP HS). cbv zeta.
  destruct (Next c) as [n|] eqn:EN.
  - pose proof (Start_extends n w) as [l1 H1].
    pose proof (Start_chain_len n w) as HL.
    destruct (Start n w) as [[serr n1] w1]. simpl in H1, HL.
    destruct serr as [er|].
    { simpl. rewrite H1, <- app_assoc. now eexists. }
    pose proof (ownWait_frame (set_Next (Some n1) c) w1 pid HP HS) as HF.
    destruct (ownWait (set_Next (Some n1) c) w1) as [[err c2] w2].
    destruct (HF _ _ _ eq_refl) as (_ & _ & _ & _ & l2 & H2 & _).
    destruct err as [er|].
    { simpl. rewrite H2, H1, <- !app_assoc. now eexists. }
    match goal with |- context [Wait n1 ?w'] => set (w3 := w') end.
    destruct (IH n1 w3) as [l4 H4].
    { rewrite (chain_len_Next c n EN) in Hk. lia. }
    destruct (Wait n1 w3) as [[r n2] w4]. simpl in *.
    rewrite H4, H2, H1, <- !app_assoc. now eexists.
  - pose proof (ownWait_frame c w pid HP HS) as HF.
    destruct (ownWait c w) as [[err c2] w2].
    destruct (HF _ _ _ eq_refl) as (_ & _ & _ & _ & l2 & H2 & _).
    simpl. rewrite H2, <- !app_assoc. now eexists.
Qed.

Lemma Wait_extends (c : Cmd) (w : World) :
  exists l, events (snd (Wait c w)) = events w ++ l.
Proof. exact (Wait_extends_bounded (chain_len c) c w (le_n _)). Qed.

Lemma tl_nodes (c : Cmd) :
  tl (nodes c) = match Next c with
                 | Some m => nodes m
                 | None => []
                 end.
Proof. now destruct c as [e [m|] y b cl t l]. Qed.

(** [Start] leaves the commands of the stages further down untouched. *)
Lemma Start_success_downstream (n : Cmd) (w : World) (n1 : Cmd) (w1 : World) :
  Start n w = (None, n1, w1) ->
  map cmd (tl (nodes n1)) = map cmd (tl (nodes n)).
Proof.
  intros ES. destruct (Start_success n w n1 w1 ES) as (_ & -> & _).
  rewrite !tl_nodes. unfold prepared, upd_cmd. cbn [Next set_cmd].
  rewrite Next_prepare. destruct (Next n) as [m|]; [|reflexivity].
  apply nodes_set_ctx.
Qed.

(** [Start] and [Wait] keep the descriptor within its lifecycle, so the
    already-waited guard of [Wait] is the one met whenever exit information
    is present. *)
Lemma Start_lifecycle (c : Cmd) (w : World) :
  lifecycle_ok c -> lifecycle_ok (snd (fst (Start c w))).
Proof.
  unfold lifecycle_ok. intros H.
  destruct (Process (cmd c)) as [p|] eqn:HP.
  { rewrite Start_already_started by congruence. cbn. now rewrite HP. }
  destruct (Start_cases c w HP) as [[er ->] | ->]; cbn; [|discriminate].
  unfold prepared. now rewrite ProcessState_prepare, Process_prepare, HP.
Qed.

Lemma Wait_lifecycle (c : Cmd) (w : World) :
  lifecycle_ok c -> lifecycle_ok (snd (fst (Wait c w))).
Proof.
  unfold lifecycle_ok. intros H.
  destruct (Process (cmd c)) as [pid|] eqn:HP;
    [|rewrite Wait_not_started by exact HP; cbn; now rewrite HP].
  destruct (ProcessState (cmd c)) as [st|] eqn:HS.
  { rewrite Wait_already_called by congruence. cbn. now rewrite HP. }
  intros _. rewrite (Wait_run c w pid HP HS). cbv zeta.
  destruct (Next c) as [n|].
  - destruct (Start n w) as [[serr n1] w1].
    destruct serr as [er|]; [cbn; now rewrite HP|].
    pose proof (ownWait_frame (set_Next (Some n1) c) w1 pid HP HS) as HF.
    destruct (ownWait (set_Next (Some n1) c) w1) as [[err c2] w2].
    destruct (HF _ _ _ eq_refl) as (_ & _ & _ & HP2 & _).
    destruct err as [er|]; [cbn; now rewrite HP2|].
    match goal with |- context [Wait n1 ?w'] =>
      destruct (Wait n1 w') as [[r n2] w4] end.
    cbn. now rewrite HP2.
  - pose proof (ownWait_frame c w pid HP HS) as HF.
    destruct (ownWait c w) as [[err c2] w2].
    destruct (HF _ _ _ eq_refl) as (_ & _ & _ & HP2 & _).
    cbn. now rewrite HP2.
Qed.

(** C1, as the code has it: for a started, not yet waited descriptor with
    a next stage, [Wait] starts the next stage before anything else; when
    that start succeeds, the stage's own underlying wait follows; if it
    succeeds, the result of [Wait] is the result of the next stage's [Wait];
    if it fails with [er], [Wait] returns [er] without waiting on the next
    stage, whose span (the one its [Start] opened) is set to error status
    with the message naming the failed command string and its exit code and
    is ended, the next stage being left as [Start] returned it.
    Consequently, when the head's [Wait] returns nil every stage of the
    chain has been started and waited on. *)
Theorem Wait_with_next_stage (c n : Cmd) (w : World) (pid : nat) :
  Next c = Some n -> Process (cmd c) = Some pid -> ProcessState (cmd c) = None ->
  let span := SpanFromContext (ctx c) in
  let '(serr, n1, w1) := Start n w in
  let '(err, c2, w2) := ownWait (set_Next (Some n1) c) w1 in
  let w3 := add_events w2 [EvClose (closer c)] in
  (exists l, events (snd (Wait c w)) = events w1 ++ l)
  /\ (serr = None ->
        (exists l,
           events w2 = events w1 ++ EvProcWait pid (os_wait (cmd c)) :: l)
        /\ (err = None ->
              let '(r, n2, w4) := Wait n1 w3 in
              let c3 := set_Next (Some n2) c2 in
              Wait c w = (r, c3, add_events w4 (finish_events span c3 r)))
        /\ (forall er, err = Some er ->
              Wait c w
              = (Some er, c2,
                 add_events w3
                   ([EvSpanSetStatus (fresh w) CodeError
                       ("`" ++ exec_String (cmd c2) ++ "` exited with code "
                        ++ string_of_Z (ExitCode (ProcessState (cmd c2))));
                     EvSpanEnd (fresh w)]
                    ++ finish_events span c2 (Some er)))
              /\ In (span_event n w) (events w1)
              /\ Next c2 = Some n1
              /\ Process (cmd n1) = Some (S (fresh w))
              /\ ProcessState (cmd n1) = ProcessState (cmd n)
              /\ map cmd (tl (nodes n1)) = map cmd (tl (nodes n))))
  /\ (fst (fst (Wait c w)) = None ->
        Forall completed (nodes (snd (fst (Wait c w))))).
Proof.
  intros EN HP HS. cbv zeta.
  pose proof (Wait_success_completes (chain_len c) c w pid (le_n _) HP HS) as HC.
  pose proof (Wait_run c w pid HP HS) as HW. cbv zeta in HW. rewrite EN in HW.
  destruct (Start n w) as [[serr n1] w1] eqn:ES.
  pose proof (ownWait_frame (set_Next (Some n1) c) w1 pid HP HS) as HF.
  destruct (ownWait (set_Next (Some n1) c) w1) as [[err c2] w2] eqn:EO.
  assert (Hcl : closer c2 = closer c /\ Next c2 = Some n1
                /\ exists l, events w2
                     = events w1 ++ EvProcWait pid (os_wait (cmd c)) :: l).
  { destruct (HF _ _ _ eq_refl) as (H1 & H2 & _ & _ & l & H5 & _).
    repeat split; [exact H1 | exact H2 | now exists l]. }
  destruct Hcl as (Hcl & HN2 & l2 & Hl2).
  rewrite Hcl in HW.
  split; [|split; [|exact HC]].
  - destruct serr as [er|].
    + rewrite HW. simpl. now eexists.
    + destruct err as [er|].
      * rewrite HW. simpl. rewrite Hl2, <- !app_assoc. now eexists.
      * destruct (Wait n1 (add_events w2 [EvClose (closer c)]))
          as [[r n2] w4] eqn:EW2.
        rewrite HW. simpl.
        pose proof (Wait_extends n1 (add_events w2 [EvClose (closer c)])) as [l4 H4].
        rewrite EW2 in H4. simpl in H4. rewrite H4, Hl2, <- !app_assoc.
        now eexists.
  - intros ->. destruct (Start_success n w n1 w1 ES) as (HPn & Hn1 & Hw1).
    split; [now exists l2|]. split.
    + intros ->.
      destruct (Wait n1 (add_events w2 [EvClose (closer c)])) as [[r n2] w4].
      exact HW.
    + intros er ->. repeat split.
      * rewrite HW. f_equal. rewrite add_events_app.
        unfold mark_events, SpanFromContext. rewrite Hn1.
        unfold prepared, upd_cmd. cbn [ctx set_cmd]. rewrite ctx_prepare.
        reflexivity.
      * rewrite Hw1. simpl. apply in_or_app. right. simpl. auto.
      * exact HN2.
      * now rewrite Hn1.
      * rewrite Hn1. unfold prepared. cbn [cmd upd_cmd set_cmd set_Process ProcessState].
        now rewrite ProcessState_prepare.
      * exact (Start_success_downstream n w n1 w1 ES).
Qed.

End Waiting.

Section Ordering.

Context {os : OS}.

(** C9, as the code has it: the stage after [c] is started by the [Wait] on
    [c] before the underlying wait of [c] is invoked, whatever that wait
    then reports; a [Wait] on a stage that has not been started starts
    nothing. *)
Theorem next_stage_started_before_own_wait (c n : Cmd) (w : World) :
  Next c = Some n ->
  (Process (cmd c) = None -> snd (Wait c w) = w)
  /\ (forall pid,
        Process (cmd c) = Some pid -> ProcessState (cmd c) = None ->
        let '(serr, n1, w1) := Start n w in
        serr = None ->
        exists pre post,
          events (snd (Wait c w))
          = events w ++ pre ++ EvProcWait pid (os_wait (cmd c)) :: post
          /\ In (EvSpawn (cmd (prepared n w)) (Spawned (S (fresh w)))) pre
          /\ Process (cmd n1) = Some (S (fresh w))
          /\ forallb (fun ev => negb (is_wait_of pid ev)) pre = true).
Proof.
  intros EN. split.
  { intros HP. apply Wait_guarded. now left. }
  intros pid HP HS.
  destruct (Start n w) as [[serr n1] w1] eqn:ES.
  intros ->.
  destruct (Start_success n w n1 w1 ES) as (HPn & Hn1 & Hw1).
  assert (Hpost : exists post,
            events (snd (Wait c w))
            = events w1 ++ EvProcWait pid (os_wait (cmd c)) :: post).
  { pose proof (Wait_run c w pid HP HS) as HR. cbv zeta in HR.
    rewrite EN, ES in HR.
    pose proof (ownWait_frame (set_Next (Some n1) c) w1 pid HP HS) as HF.
    destruct (ownWait (set_Next (Some n1) c) w1) as [[err' c2'] w2'].
    destruct (HF _ _ _ eq_refl) as (_ & _ & _ & _ & l' & H' & _).
    cbn [cmd set_Next] in H'.
    destruct err' as [er|].
    - rewrite HR. simpl. rewrite H', <- !app_assoc. now eexists.
    - match type of HR with context [Wait n1 ?w'] =>
        pose proof (Wait_extends n1 w') as [l4 H4];
        destruct (Wait n1 w') as [[r n2] w4] end.
      rewrite HR. simpl in *. rewrite H4, H', <- !app_assoc. now eexists. }
  destruct Hpost as [post Hpost].
  exists (good_start_events n w), post. repeat split.
  - rewrite Hpost, Hw1. simpl. now rewrite <- !app_assoc.
  - simpl. auto.
  - now rewrite Hn1.
Qed.

End Ordering.


Section Wiring.

Context {os : OS}.

Lemma nodes_set_Next (n c : Cmd) :
  nodes (set_Next (Some n) c) = set_Next (Some n) c :: nodes n.
Proof. reflexivity. Qed.

(** What [wire] leaves alone and what it copies. *)
Lemma wire_fields (p : nat) (c n : Cmd) :
  let '(c1, n1) := wire p c n in
  tracer c1 = tracer c /\ logger c1 = logger c /\ Err (cmd c1) = Err (cmd c)
  /\ Next c1 = Next c /\ ctx c1 = ctx c
  /\ tracer n1 = tracer c /\ logger n1 = logger c
  /\ Err (cmd n1) = Err (cmd n) /\ Next n1 = Next n /\ ctx n1 = ctx n.
Proof. unfold wire. now repeat split. Qed.

Lemma chain_len_by_Next (c c' : Cmd) :
  Next c' = Next c -> chain_len c' = chain_len c.
Proof.
  destruct c as [e [n|] y b cl t l], c' as [e' [n'|] y' b' cl' t' l'];
    simpl; congruence.
Qed.

Lemma nodes_by_Next (c c' : Cmd) :
  Next c' = Next c -> tl (nodes c') = tl (nodes c).
Proof.
  destruct c as [e [n|] y b cl t l], c' as [e' [n'|] y' b' cl' t' l'];
    simpl; congruence.
Qed.

Lemma setupCmd_body_ext (r1 r2 : Cmd -> M (option Error * Cmd)) (c : Cmd) (w : World) :
  (forall n w', chain_len n < chain_len c -> r1 n w' = r2 n w') ->
  setupCmd_body r1 c w = setupCmd_body r2 c w.
Proof.
  intros H. unfold setupCmd_body.
  destruct (Err (cmd c)); [reflexivity|].
  destruct (Next c) as [n|] eqn:EN; [|reflexivity].
  pose proof (chain_len_Next c n EN) as HL.
  destruct (Err (cmd n)); munfold.
  - rewrite H; [reflexivity|lia].
  - pose proof (wire_fields (fresh w) c n) as HW.
    destruct (wire (fresh w) c n) as [c1 n1].
    destruct HW as (_ & _ & _ & _ & _ & _ & _ & _ & HN & _).
    rewrite H; [reflexivity|]. rewrite (chain_len_by_Next n n1 HN). lia.
Qed.

(** [setupCmd] satisfies the recursive equation of the source. *)
Lemma setupCmd_unfold (c : Cmd) (w : World) :
  setupCmd c w = setupCmd_body setupCmd c w.
Proof. exact (unroll_unfold setupCmd_body setupCmd_body_ext c w). Qed.

Lemma error_free_prefix_cons (n : Cmd) (l : list Cmd) :
  Err (cmd n) = None -> error_free_prefix (n :: l) = n :: error_free_prefix l.
Proof. intros H. simpl. now rewrite H. Qed.

Lemma error_tail_cons (n : Cmd) (l : list Cmd) :
  Err (cmd n) = None -> error_tail (n :: l) = error_tail l.
Proof. intros H. simpl. now rewrite H. Qed.

Lemma nodes_head (c : Cmd) : nodes c = c :: tl (nodes c).
Proof. now destruct c as [e [n|] y b cl t l]. Qed.

(** What the wiring pass establishes, and what it leaves as it was. *)
Lemma setupCmd_invariant (k : nat) :
  forall c w, chain_len c <= k ->
    let c' := snd (fst (setupCmd c w)) in
    tracer c' = tracer c /\ logger c' = logger c
    /\ Err (cmd c') = Err (cmd c)
    /\ Forall (fun n => tracer n = tracer c /\ logger n = logger c)
              (error_free_prefix (nodes c'))
    /\ error_tail (nodes c') = error_tail (nodes c).
Proof.
  induction k as [|k IH]; intros c w Hk.
  { pose proof (chain_len_pos c). lia. }
  cbv zeta. rewrite setupCmd_unfold. unfold setupCmd_body.
  destruct (Err (cmd c)) as [e|] eqn:HE.
  { munfold. cbn [fst snd]. repeat split.
    - exact HE.
    - rewrite (nodes_head c). simpl. rewrite HE. constructor. }
  destruct (Next c) as [n|] eqn:EN.
  2:{ munfold. cbn [fst snd]. repeat split; [exact HE|].
      rewrite (nodes_head c), error_free_prefix_cons by exact HE.
      rewrite tl_nodes, EN. repeat constructor. }
  pose proof (chain_len_Next c n EN) as HL.
  rewrite (nodes_head c), tl_nodes, EN.
  destruct (Err (cmd n)) as [en|] eqn:HEn; munfold.
  - specialize (IH n w ltac:(lia)). cbv zeta in IH.
    destruct (setupCmd n w) as [[e n2] w2]. cbn [fst snd] in *.
    destruct IH as (_ & _ & HE2 & _ & HT).
    rewrite nodes_set_Next.
    rewrite error_free_prefix_cons, !error_tail_cons by (cbn; exact HE).
    repeat split; [exact HE | | exact HT].
    constructor; [now split|].
    rewrite (nodes_head n2). simpl. rewrite HE2, HEn. constructor.
  - pose proof (wire_fields (fresh w) c n) as HW.
    destruct (wire (fresh w) c n) as [c1 n1].
    destruct HW as (Ht1 & Hl1 & He1 & _ & _ & Htn & Hln & Hen & HNn & _).
    match goal with |- context [setupCmd n1 ?w'] => set (w1 := w') end.
    specialize (IH n1 w1). cbv zeta in IH.
    destruct (setupCmd n1 w1) as [[e n2] w2]. cbn [fst snd] in *.
    destruct IH as (Ht2 & Hl2 & HE2 & HF & HT).
    { rewrite (chain_len_by_Next n n1 HNn). lia. }
    rewrite nodes_set_Next.
    rewrite error_free_prefix_cons, !error_tail_cons
      by (cbn; congruence).
    repeat split; try (cbn; congruence).
    + constructor; [cbn; now split|].
      rewrite Htn, Hln in HF. exact HF.
    + rewrite HT, (nodes_head n1), (nodes_head n), (nodes_by_Next n n1 HNn).
      rewrite !error_tail_cons by congruence. reflexivity.
Qed.

Lemma error_free_prefix_all (l : list Cmd) :
  Forall (fun n => Err (cmd n) = None) l -> error_free_prefix l = l.
Proof.
  induction 1 as [|n l Hn _ IH]; [reflexivity|].
  simpl. now rewrite Hn, IH.
Qed.

Lemma error_tail_nil (l : list Cmd) :
  error_tail l = [] <-> Forall (fun n => Err (cmd n) = None) l.
Proof.
  induction l as [|n l IH]; simpl.
  - split; [constructor|reflexivity].
  - destruct (Err (cmd n)) eqn:E.
    + split; [discriminate|]. intros H. inversion H; congruence.
    + rewrite IH. split; [now constructor|]. intros H. now inversion H.
Qed.

(** C6, as the code has it: after the wiring pass every stage in front of
    the first one that carries a construction error has the tracer and the
    logger of the head; that stage and the stages after it are left exactly
    as they were.  In a chain without construction errors every stage
    shares the configuration of the head. *)
Theorem wiring_shares_config_up_to_first_error (c : Cmd) (w : World) :
  let c' := snd (fst (setupCmd c w)) in
  Forall (fun n => tracer n = tracer c' /\ logger n = logger c')
         (error_free_prefix (nodes c'))
  /\ error_tail (nodes c') = error_tail (nodes c)
  /\ (Forall (fun n => Err (cmd n) = None) (nodes c) -> shares_config c').
Proof.
  cbv zeta.
  destruct (setupCmd_invariant (chain_len c) c w (le_n _))
    as (Ht & Hl & _ & HF & HT).
  rewrite Ht, Hl. split; [exact HF|]. split; [exact HT|].
  intros Hall. unfold shares_config. rewrite Ht, Hl.
  rewrite <- (error_free_prefix_all (nodes (snd (fst (setupCmd c w))))).
  - exact HF.
  - apply error_tail_nil. rewrite HT. now apply error_tail_nil.
Qed.

End Wiring.

Section Building.

Context {os : OS}.

(** Induction along a chain, from its last stage to its head. *)
Lemma Cmd_chain_ind (P : Cmd -> Prop) :
  (forall c, Next c = None -> P c) ->
  (forall c n, Next c = Some n -> P n -> P c) ->
  forall c, P c.
Proof.
  intros H0 HS. fix IH 1. intros [e [n|] x b cl t l].
  - apply (HS (mkCmd e (Some n) x b cl t l) n eq_refl). apply IH.
  - now apply H0.
Qed.

(** The wiring pass on a single stage changes nothing. *)
Lemma setupCmd_single (c : Cmd) (w : World) :
  Next c = None ->
  snd (fst (setupCmd c w)) = c /\ fst (fst (setupCmd c w)) = Err (cmd c).
Proof.
  intros HN. rewrite setupCmd_unfold. unfold setupCmd_body. rewrite HN.
  destruct (Err (cmd c)); munfold; now split.
Qed.

(** The stage [Pipe] creates: it inherits the given context and has no
    next stage. *)
Lemma new_stage_shape (x : Context) (name : string) (args : list string) (w : World) :
  let n := fst (CommandContext_with (fun o c => ret (applySimple o c))
                  x name [WithArgs args] w) in
  ctx n = x /\ Next n = None.
Proof.
  cbv zeta. unfold CommandContext_with, newCmd, applyOptions. munfold.
  match goal with |- context [setupCmd ?c ?w'] =>
    destruct (setupCmd_single c w' eq_refl) as [H1 H2];
    destruct (setupCmd c w') as [[e c'] w''] end.
  cbn [fst snd] in *. subst c'. now split.
Qed.

(** [CommandContext] with [WithArgs] alone needs direct assignments
    only, so the closure of [Pipe] calls [CommandContext] as the source
    does. *)
Lemma CommandContext_WithArgs (x : Context) (name : string) (args : list string) (w : World) :
  CommandContext x name [WithArgs args] w
  = CommandContext_with (fun o c => ret (applySimple o c)) x name
      [WithArgs args] w.
Proof. reflexivity. Qed.

Lemma detach_set_Next (v : option Cmd) (c : Cmd) : detach (set_Next v c) = detach c.
Proof. reflexivity. Qed.

(** One [Pipe] option: the chain grows by one stage at its end and the
    stages it had are kept. *)
Lemma Pipe_applyOption_chain (name : string) (args : list string) (c : Cmd) :
  forall w,
    let c' := fst (Pipe_applyOption name args c w) in
    chain_len c' = S (chain_len c)
    /\ detach c' = detach c
    /\ exists n, map detach (nodes c') = map detach (nodes c) ++ [n].
Proof.
  induction c as [c HN | c n HN IH] using Cmd_chain_ind; intros w; cbv zeta.
  - replace (Pipe_applyOption name args c w) with
      (let (n, w') := CommandContext_with (fun o c => ret (applySimple o c))
                        (ctx c) name [WithArgs args] w in
       (set_Next (Some n) c, w'))
      by (destruct c as [e nx y b cl t l]; cbn in HN; subst nx; reflexivity).
    pose proof (new_stage_shape (ctx c) name args w) as [_ HNn]. cbv zeta in HNn.
    destruct (CommandContext_with _ (ctx c) name [WithArgs args] w) as [n w'].
    cbn [fst] in *. repeat split.
    + rewrite (chain_len_Next (set_Next (Some n) c) n eq_refl).
      rewrite (chain_len_by_Next (set_Next None n) n)
        by (cbn; now rewrite HNn).
      destruct c as [e nx y b cl t l]; cbn in HN; subst nx. reflexivity.
    + exists (detach n). rewrite nodes_set_Next, (nodes_head c), tl_nodes, HN.
      rewrite (nodes_head n), tl_nodes, HNn. reflexivity.
  - replace (Pipe_applyOption name args c w) with
      (let (n', w') := Pipe_applyOption name args n w in
       (set_Next (Some n') c, w'))
      by (destruct c as [e nx y b cl t l]; cbn in HN; subst nx; reflexivity).
    specialize (IH w). cbv zeta in IH.
    destruct (Pipe_applyOption name args n w) as [n' w'].
    cbn [fst] in *. destruct IH as (HL & HD & m & Hm). repeat split.
    + rewrite (chain_len_Next (set_Next (Some n') c) n' eq_refl), HL.
      now rewrite (chain_len_Next c n HN).
    + exists m. rewrite nodes_set_Next, (nodes_head c), tl_nodes, HN.
      cbn [map app]. now rewrite Hm.
Qed.

Lemma applyOptions_pipes (opts : list Option) :
  forallb is_Pipe opts = true ->
  forall c w,
    let c' := fst (applyOptions applyOption opts c w) in
    chain_len c' = chain_len c + length opts
    /\ exists added, map detach (nodes c') = map detach (nodes c) ++ added
                     /\ length added = length opts.
Proof.
  induction opts as [|o opts IH]; intros Hp c w; cbv zeta.
  - cbn. split; [lia|]. exists []. now rewrite app_nil_r.
  - cbn in Hp. apply andb_true_iff in Hp as [Ho Hp].
    destruct o as [name args| | | | | | | |]; try discriminate.
    cbn [applyOptions applyOption]. munfold.
    pose proof (Pipe_applyOption_chain name args c w) as (HL & _ & m & Hm).
    destruct (Pipe_applyOption name args c w) as [c1 w1]. cbn [fst] in *.
    destruct (IH Hp c1 w1) as (HL' & added & Ha & Hlen).
    split; [rewrite HL', HL; cbn; lia|].
    exists (m :: added). split; [|cbn; now rewrite Hlen].
    rewrite Ha, Hm, <- app_assoc. reflexivity.
Qed.

(** C8: a [Pipe] option applied to a descriptor without next stage links a
    new stage built by [CommandContext] from the descriptor's own context;
    applied to a descriptor with a next stage it is applied to that stage
    instead.  So a sequence of [Pipe] options lengthens the chain by one
    stage each, at its end, and keeps every stage the chain had: from a
    single descriptor, n options give n+1 stages.  (A chain is a finite
    list of stages by its type here, so it has no cycle by
    construction.) *)
Theorem Pipe_appends_a_stage :
  (forall name args c w, Next c = None ->
     let r := CommandContext (ctx c) name [WithArgs args] w in
     applyOption (Pipe name args) c w = (set_Next (Some (fst r)) c, snd r)
     /\ ctx (fst r) = ctx c /\ Next (fst r) = None)
  /\ (forall name args c n w, Next c = Some n ->
        let r := applyOption (Pipe name args) n w in
        applyOption (Pipe name args) c w = (set_Next (Some (fst r)) c, snd r))
  /\ (forall opts c w, forallb is_Pipe opts = true ->
        let c' := fst (applyOptions applyOption opts c w) in
        chain_len c' = chain_len c + length opts
        /\ (Next c = None -> chain_len c' = length opts + 1)
        /\ exists added,
             map detach (nodes c') = map detach (nodes c) ++ added
             /\ length added = length opts).
Proof.
  split; [|split].
  - intros name args c w HN. cbv zeta. rewrite CommandContext_WithArgs.
    pose proof (new_stage_shape (ctx c) name args w) as HS. cbv zeta in HS.
    split; [|exact HS]. cbn [applyOption].
    destruct c as [e nx y b cl t l]; cbn in HN; subst nx.
    cbn [Pipe_applyOption Next ctx]. unfold bind, ret.
    now destruct (CommandContext_with _ y name [WithArgs args] w).
  - intros name args c n w HN. cbv zeta. cbn [applyOption].
    destruct c as [e nx y b cl t l]; cbn in HN; subst nx.
    cbn [Pipe_applyOption Next]. unfold bind, ret.
    now destruct (Pipe_applyOption name args n w).
  - intros opts c w Hp. cbv zeta.
    destruct (applyOptions_pipes opts Hp c w) as (HL & HA).
    split; [exact HL|]. split; [|exact HA].
    intros HN. rewrite HL.
    destruct c as [e nx y b cl t l]; cbn in HN; subst nx. cbn. lia.
Qed.

(** *** What the options leave alone *)

Lemma fold_env_core (envs : list (string * string)) :
  forall c,
    let c' := fold_left
                (fun c kv => upd_cmd (set_Env (Env (cmd c) ++ [env_entry kv])) c)
                envs c in
    Err (cmd c') = Err (cmd c) /\ Process (cmd c') = Process (cmd c)
    /\ Next c' = Next c.
Proof.
  induction envs as [|kv envs IH]; intros c; cbv zeta; [now repeat split|].
  cbn [fold_left]. destruct (IH (upd_cmd (set_Env (Env (cmd c) ++ [env_entry kv])) c))
    as (H1 & H2 & H3).
  rewrite H1, H2, H3. now repeat split.
Qed.

Lemma applySimple_core (o : Option) (c : Cmd) :
  Err (cmd (applySimple o c)) = Err (cmd c)
  /\ Process (cmd (applySimple o c)) = Process (cmd c)
  /\ Next (applySimple o c) = Next c.
Proof.
  destruct o; try (now repeat split). apply fold_env_core.
Qed.

Lemma applyOption_core (o : Option) (c : Cmd) (w : World) :
  Err (cmd (fst (applyOption o c w))) = Err (cmd c)
  /\ Process (cmd (fst (applyOption o c w))) = Process (cmd c).
Proof.
  destruct o as [name args| | | | | | | |]; cbn [applyOption].
  { pose proof (Pipe_applyOption_chain name args c w) as (_ & HD & _).
    apply (f_equal cmd) in HD. cbn in HD. rewrite HD. now split. }
  all: unfold ret; cbn [fst];
    match goal with |- context [applySimple ?o ?c'] =>
      destruct (applySimple_core o c') as (H1 & H2 & _) end;
    now split.
Qed.

Lemma applyOptions_core (opts : list Option) :
  forall c w,
    Err (cmd (fst (applyOptions applyOption opts c w))) = Err (cmd c)
    /\ Process (cmd (fst (applyOptions applyOption opts c w))) = Process (cmd c).
Proof.
  induction opts as [|o opts IH]; intros c w; [now split|].
  cbn [applyOptions]. unfold bind.
  pose proof (applyOption_core o c w) as (H1 & H2).
  destruct (applyOption o c w) as [c1 w1]. cbn [fst] in *.
  destruct (IH c1 w1) as (H3 & H4). rewrite H3, H4. now split.
Qed.

(** *** Construction writes nothing but log events *)

Lemma logs_ret {A : Type} (a : A) : logs_only (ret a).
Proof. intros w. exists []. cbn. now rewrite app_nil_r. Qed.

Lemma logs_bind {A B : Type} (m : M A) (k : A -> M B) :
  logs_only m -> (forall a, logs_only (k a)) -> logs_only (bind m k).
Proof.
  intros Hm Hk w. unfold bind. destruct (Hm w) as (l1 & H1 & F1).
  destruct (m w) as [a w1]. destruct (Hk a w1) as (l2 & H2 & F2).
  exists (l1 ++ l2). cbn [snd] in *. rewrite H2, H1, <- app_assoc.
  split; [reflexivity|]. rewrite forallb_app. now rewrite F1, F2.
Qed.

Lemma logs_new_id : logs_only new_id.
Proof. intros w. exists []. cbn. now rewrite app_nil_r. Qed.

Lemma logs_Debug (l : Logger) (msg : string) (kv : list (string * LogVal)) :
  logs_only (logger_Debug l msg kv).
Proof. intros w. now exists [EvLog l msg kv]. Qed.

Lemma logs_setupCmd_bounded (k : nat) :
  forall c, chain_len c <= k -> logs_only (setupCmd c).
Proof.
  induction k as [|k IH]; intros c Hk.
  { pose proof (chain_len_pos c). lia. }
  intros w. rewrite setupCmd_unfold. unfold setupCmd_body.
  destruct (Err (cmd c)) as [ec|].
  { munfold. cbn [snd events]. now eexists. }
  destruct (Next c) as [n|] eqn:EN;
    [|munfold; exists []; cbn; now rewrite app_nil_r].
  pose proof (chain_len_Next c n EN) as HL.
  destruct (Err (cmd n)) as [en|]; munfold.
  - destruct (IH n ltac:(lia) w) as (l & Hl & Fl).
    destruct (setupCmd n w) as [[e n2] w2]. now exists l.
  - pose proof (wire_fields (fresh w) c n) as HW.
    destruct (wire (fresh w) c n) as [c1 n1].
    destruct HW as (_ & _ & _ & _ & _ & _ & _ & _ & HN & _).
    match goal with |- context [setupCmd n1 ?w'] =>
      destruct (IH n1 ltac:(rewrite (chain_len_by_Next n n1 HN); lia) w')
        as (l & Hl & Fl);
      destruct (setupCmd n1 w') as [[e n2] w2] end.
    now exists l.
Qed.

Lemma logs_setupCmd (c : Cmd) : logs_only (setupCmd c).
Proof. exact (logs_setupCmd_bounded (chain_len c) c (le_n _)). Qed.

Lemma logs_newCmd (x : Context) (name : string) : logs_only (newCmd x name).
Proof.
  unfold newCmd. apply logs_bind; [apply logs_new_id | intros; apply logs_ret].
Qed.

Lemma logs_applyOptions (apply : Option -> Cmd -> M Cmd) (opts : list Option) :
  (forall o c, logs_only (apply o c)) ->
  forall c, logs_only (applyOptions apply opts c).
Proof.
  intros Ha. induction opts as [|o opts IH]; intros c; cbn [applyOptions].
  - apply logs_ret.
  - apply logs_bind; [apply Ha | exact IH].
Qed.

Lemma logs_CommandContext_with (apply : Option -> Cmd -> M Cmd)
    (x : Context) (name : string) (opts : list Option) :
  (forall o c, logs_only (apply o c)) ->
  logs_only (CommandContext_with apply x name opts).
Proof.
  intros Ha. unfold CommandContext_with.
  apply logs_bind; [apply logs_newCmd|]. intros c0.
  apply logs_bind; [now apply logs_applyOptions|]. intros c1.
  apply logs_bind; [apply logs_setupCmd|]. intros [e c2]. apply logs_ret.
Qed.

Lemma logs_Pipe_applyOption (name : string) (args : list string) (c : Cmd) :
  logs_only (Pipe_applyOption name args c).
Proof.
  induction c as [c HN | c n HN IH] using Cmd_chain_ind.
  - replace (Pipe_applyOption name args c) with
      (bind (CommandContext_with (fun o c => ret (applySimple o c))
               (ctx c) name [WithArgs args])
            (fun n => ret (set_Next (Some n) c)))
      by (destruct c as [e nx y b cl t l]; cbn in HN; subst nx; reflexivity).
    apply logs_bind; [|intros; apply logs_ret].
    apply logs_CommandContext_with. intros; apply logs_ret.
  - replace (Pipe_applyOption name args c) with
      (bind (Pipe_applyOption name args n)
            (fun n' => ret (set_Next (Some n') c)))
      by (destruct c as [e nx y b cl t l]; cbn in HN; subst nx; reflexivity).
    apply logs_bind; [exact IH | intros; apply logs_ret].
Qed.

Lemma logs_applyOption (o : Option) (c : Cmd) : logs_only (applyOption o c).
Proof.
  destruct o; cbn [applyOption]; try apply logs_ret.
  apply logs_Pipe_applyOption.
Qed.

Lemma logs_CommandContext (x : Context) (name : string) (opts : list Option) :
  logs_only (CommandContext x name opts).
Proof. apply logs_CommandContext_with. exact logs_applyOption. Qed.

(** The wiring pass on a head that carries a construction error logs it and
    returns it, the chain untouched. *)
Lemma setupCmd_head_error (c : Cmd) (w : World) (e : Error) :
  Err (cmd c) = Some e ->
  setupCmd c w
  = (Some e, c,
     add_events w [EvLog (logger c)
                     (filepath_Base (Path (cmd c)) ++ " not found")%string []]).
Proof.
  intros HE. rewrite setupCmd_unfold. unfold setupCmd_body. now rewrite HE.
Qed.

Lemma Process_exec_CommandContext (name : string) :
  Process (exec_CommandContext name) = None.
Proof.
  unfold exec_CommandContext. destruct (String.eqb (filepath_Base name) name);
    [|reflexivity].
  destruct (exec_LookPath name) as [lp [er|]];
    destruct (String.eqb lp ""); reflexivity.
Qed.

Lemma upd_set_Err_same (c : Cmd) (e : option Error) :
  Err (cmd c) = e -> upd_cmd (set_Err e) c = c.
Proof. destruct c as [[] ? ? ? ? ? ?]. cbn. now intros ->. Qed.

Lemma Cmd_String_unfold (c : Cmd) :
  Cmd_String c
  = (exec_String (cmd c) ++ match Next c with
                            | Some n => " | " ++ Cmd_String n
                            | None => ""
                            end)%string.
Proof. now destruct c as [e [n|] y b cl t l]. Qed.

(** C5: when the resolution of the name fails with [e], a not-found error,
    [CommandContext] still returns a descriptor, whatever the options; the
    descriptor carries [e] in [Err], has no process, and renders as its own
    command line followed by the stages piped after it.  [RunWithContext]
    (and [Run], which is [RunWithContext] with the background context)
    returns that descriptor together with [e]; from construction to return
    nothing but log events is written, so no process is spawned and no span
    is opened. *)
Theorem unresolved_name_is_deferred (ctx0 : Context) (name : string)
    (opts : list Option) (w : World) (e : Error) :
  Err (exec_CommandContext (filepath_Clean name)) = Some e ->
  errors_Is_NotFound e = true ->
  let '(c, w1) := CommandContext ctx0 name opts w in
  (exists e', Err (cmd c) = Some e' /\ e' = e /\ errors_Is_NotFound e' = true)
  /\ Process (cmd c) = None
  /\ Cmd_String c
     = (exec_String (cmd c) ++ match Next c with
                               | Some n => " | " ++ Cmd_String n
                               | None => ""
                               end)%string
  /\ RunWithContext ctx0 name opts w
     = (c, Some e, add_events w1 [EvLog (logger c) (Error_msg e) []])
  /\ Run name opts w = RunWithContext context_Background name opts w
  /\ exists l, events w1 = events w ++ l /\ forallb is_log l = true.
Proof.
  intros HE HNF.
  pose proof (logs_CommandContext ctx0 name opts w) as HL.
  assert (HR : RunWithContext ctx0 name opts w
               = let (c, w1) := CommandContext ctx0 name opts w in
                 match Err (cmd c) with
                 | Some e0 => (c, Some e0,
                               add_events w1 [EvLog (logger c) (Error_msg e0) []])
                 | None => let '(err, c', w2) := Cmd_Run c w1 in (c', err, w2)
                 end).
  { unfold RunWithContext, bind.
    destruct (CommandContext ctx0 name opts w) as [c w1].
    destruct (Err (cmd c)); [reflexivity|].
    unfold ret. now destruct (Cmd_Run c w1) as [[err c'] w2]. }
  assert (HC : Err (cmd (fst (CommandContext ctx0 name opts w))) = Some e
               /\ Process (cmd (fst (CommandContext ctx0 name opts w))) = None).
  { unfold CommandContext, CommandContext_with, newCmd. munfold.
    match goal with |- context [applyOptions applyOption opts ?c0 ?w0] =>
      pose proof (applyOptions_core opts c0 w0) as (H1 & H2);
      destruct (applyOptions applyOption opts c0 w0) as [c1 w1] end.
    cbn [fst cmd upd_cmd set_cmd set_Env Err Process] in H1, H2.
    rewrite HE in H1. rewrite Process_exec_CommandContext in H2.
    rewrite (setupCmd_head_error c1 w1 e H1). cbn [fst].
    rewrite (upd_set_Err_same c1 (Some e) H1). now split. }
  destruct (CommandContext ctx0 name opts w) as [c w1]. cbn [fst snd] in *.
  destruct HC as (HEc & HPc). rewrite HEc in HR.
  split; [now exists e|]. split; [exact HPc|].
  split; [apply Cmd_String_unfold|]. split; [exact HR|].
  split; [reflexivity | exact HL].
Qed.

End Building.

(** * The model run on explicit pipelines *)

Module Runs.
Import Fixture Inputs.

Lemma lifecycle_guards_witness :
  Start echo_started w0
  = (Some (errors_New "exec: already started"), echo_started, w0)
  /\ Wait echo_created w0
     = (Some (errors_New "exec: not started"), echo_created, w0)
  /\ Wait echo_waited w0
     = (Some (errors_New "exec: Wait was already called"), echo_waited, w0).
Proof.
  split; [|split].
  - apply (lifecycle_guards echo_started w0). discriminate.
  - apply (lifecycle_guards echo_created w0). reflexivity.
  - apply (lifecycle_guards echo_waited w0); discriminate.
Defined.

Lemma Start_spawn_failure_is_durable_witness :
  Process (cmd broken_created) = None
  /\ fst (fst (Start broken_created w0))
     = Some (ErrorString "fork/exec /bin/broken: permission denied")
  /\ Env (cmd (snd (fst (Start broken_created w0))))
     = ["PATH=/bin"; "TRACE_ID=0"; "SPAN_ID=0"]
  /\ Stderr (cmd (snd (fst (Start broken_created w0))))
     = WMulti [WBuffer 0; WUser 7].
Proof.
  assert (HP : Process (cmd broken_created) = None) by reflexivity.
  assert (HS : Start broken_created w0
               = (Some (ErrorString "fork/exec /bin/broken: permission denied"),
                  snd (fst (Start broken_created w0)),
                  snd (Start broken_created w0)))
    by (vm_compute; reflexivity).
  destruct (Start_spawn_failure_is_durable broken_created w0 _ _ _ HP HS)
    as (_ & _ & HE & HW & _).
  split; [exact HP|]. split; [vm_compute; reflexivity|].
  split; [exact HE | exact HW].
Defined.

Lemma Wait_with_next_stage_witness :
  let c := fst two_stages in
  let w := snd two_stages in
  Next c = Some (next_of c) /\ Process (cmd c) = Some 4
  /\ ProcessState (cmd c) = None
  /\ Forall completed (nodes (snd (fst (Wait c w)))).
Proof.
  cbv zeta.
  assert (H1 : Next (fst two_stages) = Some (next_of (fst two_stages)))
    by (vm_compute; reflexivity).
  assert (H2 : Process (cmd (fst two_stages)) = Some 4)
    by (vm_compute; reflexivity).
  assert (H3 : ProcessState (cmd (fst two_stages)) = None)
    by (vm_compute; reflexivity).
  pose proof (Wait_with_next_stage (fst two_stages) (next_of (fst two_stages))
                (snd two_stages) 4 H1 H2 H3) as H.
  cbv zeta in H.
  destruct (Start (next_of (fst two_stages)) (snd two_stages))
    as [[serr n1] w1].
  destruct (ownWait (set_Next (Some n1) (fst two_stages)) w1)
    as [[err c2] w2].
  destruct H as (_ & _ & H).
  split; [exact H1|]. split; [exact H2|]. split; [exact H3|].
  apply H. vm_compute. reflexivity.
Defined.

(** C1, the last sentence as the spec has it: at the return of the head's
    [Wait], every downstream stage has been started and has returned from
    its wait, or has failed.  In [false | echo a | sed x] the head's wait
    fails: [sed] is never handed to the spawn primitive and [echo] is never
    waited on. *)
Lemma head_wait_leaves_stages_undrained :
  let '(c, w) := failing_head in
  let '(err, c', w') := Wait c w in
  err = Some (ExitError 1)
  /\ map (fun s => Process (cmd s)) (nodes c') = [Some 6; Some 8; None]
  /\ map (fun s => ProcessState (cmd s)) (nodes c') = [Some 1%Z; None; None]
  /\ downstream_drained (events w') c' = false.
Proof. vm_compute. repeat split. Qed.

Lemma next_stage_started_before_own_wait_witness :
  let c := fst two_stages in
  let w := snd two_stages in
  Next c = Some (next_of c)
  /\ (Process (cmd c) = None -> snd (Wait c w) = w).
Proof.
  cbv zeta.
  assert (H1 : Next (fst two_stages) = Some (next_of (fst two_stages)))
    by (vm_compute; reflexivity).
  split; [exact H1|].
  exact (proj1 (next_stage_started_before_own_wait (fst two_stages)
                  (next_of (fst two_stages)) (snd two_stages) H1)).
Defined.

(** C9 as the spec has it: a downstream stage is spawned only after the
    wait of the previous stage has reported success.  In [echo a | sed x]
    the process of [sed] is spawned before [echo] is waited on. *)
Lemma downstream_started_before_upstream_wait :
  let '(c, w) := two_stages in
  let '(err, c', w') := Wait c w in
  err = None
  /\ lazy_downstream_start c (events w') = false.
Proof. vm_compute. repeat split. Qed.

(** C3 on the code: in [echo a | broken] the second stage cannot be
    spawned.  The head passes both guards of [Wait]; its span, opened by
    [Start] with number 3, is ended by line 150 and again by the deferred
    function, so [End] is called on it twice. *)
Theorem span_ended_twice_when_next_start_fails :
  let '(c, w) := broken_next in
  let '(err, c', w') := Wait c w in
  Process (cmd c) = Some 4 /\ ProcessState (cmd c) = None
  /\ err = Some (ErrorString "fork/exec /bin/broken: permission denied")
  /\ SpanFromContext (ctx c) = Some 3
  /\ opened_spans (events w') = [3; 5]
  /\ end_count 3 (events w') = 2
  /\ end_count 5 (events w') = 1
  /\ every_span_ended_once (events w') = false.
Proof. vm_compute. repeat split. Qed.

(** C4 on the code: on the same pipeline the head's closer is the write end
    of the pipe to the second stage; [Wait] returns the start error of the
    second stage before the deferred [Close] is registered, so the closer
    is never closed.  In [echo a | sed x], where the second stage starts,
    it is closed once. *)
Theorem closer_not_released_when_next_start_fails :
  (let '(c, w) := broken_next in
   let '(err, c', w') := Wait c w in
   Process (cmd c) = Some 4 /\ ProcessState (cmd c) = None
   /\ err = Some (ErrorString "fork/exec /bin/broken: permission denied")
   /\ closer c = PipeWriter 2
   /\ close_count (closer c) (events w') = 0)
  /\ (let '(c, w) := two_stages in
      close_count (closer c) (events (snd (Wait c w))) = 1).
Proof. vm_compute. repeat split. Qed.

Lemma unresolved_name_is_deferred_witness :
  Err (exec_CommandContext (filepath_Clean "not_found"))
  = Some (ExecError "not_found" ErrNotFound)
  /\ errors_Is_NotFound (ExecError "not_found" ErrNotFound) = true
  /\ snd (fst (RunWithContext context_Background "not_found"
                 [WithArgs ["hello world"]] w0))
     = Some (ExecError "not_found" ErrNotFound).
Proof.
  assert (H1 : Err (exec_CommandContext (filepath_Clean "not_found"))
               = Some (ExecError "not_found" ErrNotFound)) by reflexivity.
  assert (H2 : errors_Is_NotFound (ExecError "not_found" ErrNotFound) = true)
    by reflexivity.
  split; [exact H1|]. split; [exact H2|].
  pose proof (unresolved_name_is_deferred context_Background "not_found"
                [WithArgs ["hello world"]] w0 _ H1 H2) as H.
  destruct (CommandContext context_Background "not_found"
              [WithArgs ["hello world"]] w0) as [c w1].
  destruct H as (_ & _ & _ & HR & _). now rewrite HR.
Defined.

(** C6 as the spec has it: after the wiring pass every stage has the tracer
    and the logger of the head.  In [echo | not_found | sed x], built with a
    tracer and a logger of the caller, the stage that carries the
    construction error and the stage after it keep the no-op tracer and
    logger they were created with. *)
Lemma unresolved_stage_keeps_its_own_config :
  let c := fst unresolved_middle in
  map tracer (nodes c) = [UserTracer 1; NoopTracer; NoopTracer]
  /\ map logger (nodes c) = [UserLogger 1; NoOpLogger; NoOpLogger]
  /\ ~ shares_config c.
Proof.
  cbv zeta. split; [vm_compute; reflexivity|].
  split; [vm_compute; reflexivity|].
  intros H. unfold shares_config in H.
  assert (HT : map tracer (nodes (fst unresolved_middle))
               = [UserTracer 1; NoopTracer; NoopTracer])
    by (vm_compute; reflexivity).
  assert (HH : tracer (fst unresolved_middle) = UserTracer 1)
    by (vm_compute; reflexivity).
  rewrite HH in H.
  assert (H2 : Forall (fun n => tracer n = UserTracer 1)
                      (nodes (fst unresolved_middle)))
    by (eapply Forall_impl; [|exact H]; cbv beta; now intros ? [? _]).
  apply (Forall_map tracer (fun t => t = UserTracer 1)) in H2.
  rewrite HT in H2. inversion H2 as [|? ? _ H']. inversion H' as [|? ? Hd _].
  discriminate.
Qed.

End Runs.

(** * Further properties of the lifecycle *)

(** Brings concatenations to a right-nested form. *)
Ltac list_norm :=
  repeat (rewrite <- app_assoc || rewrite <- app_comm_cons); cbn [app].

Section Traces.

Context {os : OS}.

Lemma finish_events_some (sp : nat) (c : Cmd) (r : option Error) :
  finish_events (Some sp) c r
  = [EvSpanSetAttrInt sp "exec.exit_code" (ExitCode (ProcessState (cmd c)))]
    ++ match r with
       | None => [EvSpanSetStatus sp CodeOk ""]
       | Some er => [EvSpanRecordError sp er;
                     EvSpanSetStatus sp CodeError (Error_msg er)]
       end
    ++ [EvSpanEnd sp].
Proof. reflexivity. Qed.

(** X1: whatever path [Wait] takes past its guards, the last thing it
    writes on its own span is the exit code of its own process (-1 when
    there is no process state), the status that matches the error it
    returns (the aggregate one when stages follow), and [End]. *)
Theorem Wait_finishes_its_span (c : Cmd) (w : World) (pid sp : nat) :
  Process (cmd c) = Some pid -> ProcessState (cmd c) = None ->
  SpanFromContext (ctx c) = Some sp ->
  let '(r, c', w') := Wait c w in
  exists pre,
    events w'
    = events w ++ pre
      ++ [EvSpanSetAttrInt sp "exec.exit_code" (ExitCode (ProcessState (cmd c')))]
      ++ match r with
         | None => [EvSpanSetStatus sp CodeOk ""]
         | Some er => [EvSpanRecordError sp er;
                       EvSpanSetStatus sp CodeError (Error_msg er)]
         end
      ++ [EvSpanEnd sp].
Proof.
  intros HP HS Hsp. rewrite (Wait_run c w pid HP HS). cbv zeta. rewrite Hsp.
  destruct (Next c) as [n|].
  - pose proof (Start_extends n w) as [l1 H1].
    destruct (Start n w) as [[serr n1] w1]. cbn [snd] in H1.
    destruct serr as [er|].
    { exists (l1 ++ end_events (Some sp)). cbn [events add_events].
      rewrite H1, finish_events_some. now list_norm. }
    pose proof (ownWait_frame (set_Next (Some n1) c) w1 pid HP HS) as HF.
    destruct (ownWait (set_Next (Some n1) c) w1) as [[err c2] w2].
    destruct (HF _ _ _ eq_refl) as (_ & _ & _ & _ & l2 & H2 & _).
    destruct err as [er|].
    { exists (l1 ++ EvProcWait pid (os_wait (cmd c)) :: l2
                 ++ EvClose (closer c2) :: mark_events c2 n1).
      cbn [events add_events cmd set_Next] in *.
      rewrite H2, H1, finish_events_some. now list_norm. }
    match goal with |- context [Wait n1 ?w'] =>
      pose proof (Wait_extends n1 w') as [l4 H4];
      destruct (Wait n1 w') as [[r n2] w4] end.
    cbn [snd events add_events cmd set_Next] in *.
    exists (l1 ++ EvProcWait pid (os_wait (cmd c)) :: l2
               ++ EvClose (closer c2) :: l4).
    rewrite H4, H2, H1, finish_events_some. now list_norm.
  - pose proof (ownWait_frame c w pid HP HS) as HF.
    destruct (ownWait c w) as [[err c2] w2].
    destruct (HF _ _ _ eq_refl) as (_ & _ & _ & _ & l2 & H2 & _).
    exists (EvProcWait pid (os_wait (cmd c)) :: l2 ++ [EvClose (closer c2)]).
    cbn [events add_events].
    rewrite H2, finish_events_some. now list_norm.
Qed.

Lemma closer_prepare (x : Context) (sp : nat) (c : Cmd) :
  closer (prepare x sp c) = closer c.
Proof.
  unfold prepare, propagate_ctx, inject_trace_env, wire_stderr.
  destruct c as [e [n|] y b cl t l]; simpl; destruct (Stderr e); reflexivity.
Qed.

(** X2: [Run] on a single stage that has not been started opens one span
    and ends it exactly once, whatever happens: when the spawn fails there
    is no wait and no close; when the process is spawned it is waited on
    once and the closer is closed once; and [Run] returns nil only with
    the exit code 0 recorded. *)
Theorem Run_single_stage (c : Cmd) (w : World) :
  Next c = None -> Process (cmd c) = None -> ProcessState (cmd c) = None ->
  let '(r, c', w') := Cmd_Run c w in
  exists l,
    events w' = events w ++ l
    /\ opened_spans l = [fresh w]
    /\ end_count (fresh w) l = 1
    /\ count_events is_any_spawn l = 1
    /\ (Process (cmd c') = None ->
          r <> None /\ count_events is_any_wait l = 0
          /\ count_events is_any_close l = 0)
    /\ (Process (cmd c') <> None ->
          count_events is_any_wait l = 1
          /\ count_events is_any_close l = 1
          /\ In (EvClose (closer c)) l)
    /\ (r = None ->
          Process (cmd c') <> None /\ ProcessState (cmd c') = Some 0%Z).
Proof.
  intros HN HP HS. unfold Cmd_Run, bind.
  assert (HP1 : Process (cmd (prepared c w)) = None)
    by (unfold prepared; now rewrite Process_prepare).
  destruct (Start_cases c w HP) as [[er ->] | ->].
  { exists (failed_start_events c w er). cbn [events add_events].
    unfold end_count, count_events. cbn. rewrite Nat.eqb_refl, HP1.
    repeat split; try reflexivity; try discriminate; try easy. }
  set (c1 := upd_cmd (set_Process (Some (S (fresh w)))) (prepared c w)).
  set (w1 := add_events _ (good_start_events c w)).
  assert (HP' : Process (cmd c1) = Some (S (fresh w))) by reflexivity.
  assert (HS' : ProcessState (cmd c1) = None)
    by (unfold c1, prepared; cbn; now rewrite ProcessState_prepare).
  assert (HN' : Next c1 = None)
    by (unfold c1, prepared, upd_cmd; cbn [Next set_cmd];
        now rewrite Next_prepare, HN).
  assert (Hsp : SpanFromContext (ctx c1) = Some (fresh w))
    by (unfold c1, prepared, upd_cmd, SpanFromContext; cbn [ctx set_cmd];
        now rewrite ctx_prepare).
  assert (Hcl : closer c1 = closer c)
    by (unfold c1, prepared, upd_cmd; cbn [closer set_cmd];
        now rewrite closer_prepare).
  assert (Hw1 : events w1 = events w ++ good_start_events c w) by reflexivity.
  clearbody c1 w1.
  rewrite (Wait_run c1 w1 (S (fresh w)) HP' HS'). cbv zeta.
  rewrite HN', Hsp, (ownWait_run c1 w1 (S (fresh w)) HP' HS').
  assert (HE : forall X (r' : option Error) (c' : Cmd),
            (Process (cmd c') = Some (S (fresh w))) ->
            opened_spans X = [] -> end_count (fresh w) X = 1 ->
            count_events is_any_spawn X = 0 ->
            count_events is_any_wait X = 1 ->
            count_events is_any_close X = 1 -> In (EvClose (closer c)) X ->
            (r' = None -> ProcessState (cmd c') = Some 0%Z) ->
            exists l,
              events (add_events w1 X) = events w ++ l
              /\ opened_spans l = [fresh w]
              /\ end_count (fresh w) l = 1
              /\ count_events is_any_spawn l = 1
              /\ (Process (cmd c') = None ->
                    r' <> None /\ count_events is_any_wait l = 0
                    /\ count_events is_any_close l = 0)
              /\ (Process (cmd c') <> None ->
                    count_events is_any_wait l = 1
                    /\ count_events is_any_close l = 1
                    /\ In (EvClose (closer c)) l)
              /\ (r' = None ->
                    Process (cmd c') <> None
                    /\ ProcessState (cmd c') = Some 0%Z)).
  { intros X r' c' Hp Ho He Hs Hw Hc Hi Hr.
    exists (good_start_events c w ++ X). cbn [events add_events].
    rewrite Hw1, <- app_assoc. split; [reflexivity|].
    unfold opened_spans, end_count, count_events in *.
    rewrite flat_map_app, !filter_app, !length_app, Ho, He, Hs, Hw, Hc, Hp.
    cbn. repeat split; try discriminate; try easy; auto 6. }
  destruct (os_wait (cmd c1)) as [code copyErr|er] eqn:EW;
    cbv beta iota zeta; rewrite add_events_app.
  - destruct (Z.eqb_spec code 0) as [->|Hc];
      [destruct copyErr as [er|]|];
      apply HE; unfold end_count, count_events; cbn;
      rewrite ?Nat.eqb_refl, ?Hcl; auto 10; try discriminate.
  - apply HE; unfold end_count, count_events; cbn;
      rewrite ?Nat.eqb_refl, ?Hcl; auto 10; try discriminate.
Qed.

Lemma Wait_begins_with_Start (c n : Cmd) (w : World) (pid : nat) :
  Next c = Some n -> Process (cmd c) = Some pid -> ProcessState (cmd c) = None ->
  exists l, events (snd (Wait c w)) = events (snd (Start n w)) ++ l.
Proof.
  intros EN HP HS. rewrite (Wait_run c w pid HP HS). cbv zeta. rewrite EN.
  destruct (Start n w) as [[serr n1] w1]. cbn [snd].
  destruct serr as [er|]; [now eexists|].
  pose proof (ownWait_frame (set_Next (Some n1) c) w1 pid HP HS) as HF.
  destruct (ownWait (set_Next (Some n1) c) w1) as [[err c2] w2].
  destruct (HF _ _ _ eq_refl) as (_ & _ & _ & _ & l2 & H2 & _).
  destruct err as [er|].
  { cbn [snd events add_events]. rewrite H2. list_norm. now eexists. }
  match goal with |- context [Wait n1 ?w'] =>
    pose proof (Wait_extends n1 w') as [l4 H4];
    destruct (Wait n1 w') as [[r n2] w4] end.
  cbn [snd events add_events] in *. rewrite H4, H2. list_norm. now eexists.
Qed.

(** X3: the span of a stage is opened as a child of the span of the stage
    before it.  When [Start] succeeds on the head of a pipeline whose next
    stage has not been started, the first thing the [Wait] that follows
    writes is the opening of the next stage's span, with the head's span as
    parent, the next stage's own tracer and its argument list. *)
Theorem next_span_is_child (c n : Cmd) (w : World) (c1 : Cmd) (w1 : World) :
  Next c = Some n -> ProcessState (cmd c) = None -> Process (cmd n) = None ->
  Start c w = (None, c1, w1) ->
  In (EvSpanStart (fresh w) (tracer c) (ctx_span (ctx c)) "exec:run"
        (Args (cmd c))) (events w1)
  /\ exists l,
       events (snd (Wait c1 w1))
       = events w1
         ++ EvSpanStart (fresh w1) (tracer n) (Some (fresh w)) "exec:run"
              (Args (cmd n)) :: l.
Proof.
  intros EN HS HPn ES.
  destruct (Start_success c w c1 w1 ES) as (HP & -> & ->). split.
  { cbn. apply in_or_app. right. cbn. auto. }
  set (c1 := upd_cmd _ (prepared c w)).
  set (w1 := add_events _ (good_start_events c w)).
  assert (HN1 : Next c1 = Some (set_ctx (span_ctx c w) n))
    by (unfold c1, prepared, upd_cmd; cbn [Next set_cmd];
        now rewrite Next_prepare, EN).
  assert (HS1 : ProcessState (cmd c1) = None)
    by (unfold c1, prepared; cbn; now rewrite ProcessState_prepare).
  destruct (Wait_begins_with_Start c1 (set_ctx (span_ctx c w) n) w1
              (S (fresh w)) HN1 eq_refl HS1) as [l Hl].
  rewrite Hl.
  destruct (Start_cases (set_ctx (span_ctx c w) n) w1 HPn) as [[er ->] | ->];
    cbn [snd events add_events]; list_norm; now eexists.
Qed.

(** *** What a whole [Wait] writes *)

Lemma silent_app (l1 l2 : list Event) :
  silent l1 -> silent l2 -> silent (l1 ++ l2).
Proof. unfold silent. intros H1 H2. now rewrite forallb_app, H1, H2. Qed.

Lemma silent_logs (l : list Event) : forallb is_log l = true -> silent l.
Proof.
  unfold silent. induction l as [|ev l IH]; [reflexivity|].
  cbn. intros H. apply andb_true_iff in H as [H1 H2].
  rewrite IH by exact H2. now destruct ev.
Qed.

Lemma silent_finish (span : option nat) (c : Cmd) (r : option Error) :
  silent (finish_events span c r).
Proof. destruct span, r; reflexivity. Qed.

Lemma silent_mark (c n : Cmd) : silent (mark_events c n).
Proof. unfold mark_events. now destruct (SpanFromContext (ctx n)). Qed.

Lemma silent_end (span : option nat) : silent (end_events span).
Proof. now destruct span. Qed.

(** The facts the invariants need of a silent stretch. *)
Lemma silent_facts (l : list Event) :
  silent l ->
  count_events is_any_close l = 0 /\ count_events is_any_wait l = 0
  /\ quiet_after_failure l = true
  /\ forallb (fun e => negb (is_any_spawn e || is_any_wait e)) l = true
  /\ existsb is_failed_wait l = false
  /\ existsb is_failed_spawn l = false.
Proof.
  unfold silent, count_events. induction l as [|ev l IH]; [now repeat split|].
  cbn [forallb]. intros H. apply andb_true_iff in H as [H1 H2].
  destruct (IH H2) as (I1 & I2 & I3 & I4 & I5 & I6).
  destruct ev; try discriminate; cbn; rewrite ?I3, ?I4, ?I5, ?I6;
    now repeat split.
Qed.

Lemma quiet_app (l1 l2 : list Event) :
  quiet_after_failure l1 = true -> quiet_after_failure l2 = true ->
  (existsb is_failed_wait l1 = true ->
   forallb (fun e => negb (is_any_spawn e || is_any_wait e)) l2 = true) ->
  quiet_after_failure (l1 ++ l2) = true.
Proof.
  induction l1 as [|ev l1 IH]; intros H1 H2 H3; [exact H2|].
  cbn in *. apply andb_true_iff in H1 as [Ha Hb].
  rewrite IH; [|exact Hb|exact H2|].
  - destruct (is_failed_wait ev); [|reflexivity].
    rewrite forallb_app, Ha, H3; reflexivity.
  - intros H. apply H3. rewrite H. now destruct (is_failed_wait ev).
Qed.

(** What [Start] writes has a spawn at most, and a failed one only when
    [Start] fails. *)
Lemma Start_trace_shape (n : Cmd) (w : World) :
  exists ls,
    events (snd (Start n w)) = events w ++ ls
    /\ count_events is_any_close ls = 0 /\ count_events is_any_wait ls = 0
    /\ quiet_after_failure ls = true
    /\ existsb is_failed_wait ls = false
    /\ (fst (fst (Start n w)) = None ->
          existsb is_failed_spawn ls = false).
Proof.
  destruct (Process (cmd n)) as [p|] eqn:HP.
  { rewrite Start_already_started by congruence. exists []. cbn.
    rewrite app_nil_r. now repeat split. }
  destruct (Start_cases n w HP) as [[er ->] | ->]; eexists;
    (split; [reflexivity|]); cbn; now repeat split.
Qed.

(** The outcome of the underlying wait decides the error. *)
Lemma ownWait_outcome (c : Cmd) (w : World) (pid : nat) :
  Process (cmd c) = Some pid -> ProcessState (cmd c) = None ->
  (fst (fst (ownWait c w)) = None
   <-> is_failed_wait (EvProcWait pid (os_wait (cmd c))) = false).
Proof.
  intros HP HS. rewrite (ownWait_run c w pid HP HS).
  destruct (os_wait (cmd c)) as [code copyErr|er]; cbv zeta; cbn [fst].
  - destruct code as [|p|p]; cbn; [destruct copyErr|..]; split; easy.
  - cbn. split; easy.
Qed.

Lemma quiet_cons (ev : Event) (rest : list Event) :
  quiet_after_failure (ev :: rest)
  = (if is_failed_wait ev
     then forallb (fun e => negb (is_any_spawn e || is_any_wait e)) rest
     else true) && quiet_after_failure rest.
Proof. reflexivity. Qed.

(** The part of a [Wait] trace that follows the start of the next stage:
    the underlying wait [ev], its log events [l2], the close, and [rest]. *)
Lemma own_wait_stretch (ev : Event) (l2 rest : list Event) (cl : Closer) :
  is_any_wait ev = true -> is_any_close ev = false ->
  forallb is_log l2 = true ->
  quiet_after_failure rest = true ->
  (is_failed_wait ev = true ->
   forallb (fun e => negb (is_any_spawn e || is_any_wait e)) rest = true) ->
  let l := ev :: l2 ++ EvClose cl :: rest in
  count_events is_any_close l = S (count_events is_any_close rest)
  /\ count_events is_any_wait l = S (count_events is_any_wait rest)
  /\ quiet_after_failure l = true
  /\ existsb is_failed_wait l
     = is_failed_wait ev || existsb is_failed_wait rest.
Proof.
  intros Hw Hc Hlog Hq Hf. cbv zeta.
  destruct (silent_facts _ (silent_logs l2 Hlog))
    as (L1 & L2 & L3 & L4 & L5 & L6).
  unfold count_events in *. repeat split.
  - cbn [filter]. rewrite Hc, filter_app, length_app, L1. reflexivity.
  - cbn [filter]. rewrite Hw, filter_app. cbn [length].
    rewrite length_app, L2. reflexivity.
  - rewrite quiet_cons, forallb_app, L4.
    rewrite quiet_app; [|exact L3|cbn; exact Hq|now rewrite L5].
    destruct (is_failed_wait ev); [|reflexivity]. cbn. now rewrite Hf.
  - cbn [existsb]. rewrite existsb_app, L5. reflexivity.
Qed.

Lemma Wait_trace_invariant (k : nat) :
  forall c w, chain_len c <= k ->
    exists l,
      events (snd (Wait c w)) = events w ++ l
      /\ count_events is_any_close l = count_events is_any_wait l
      /\ quiet_after_failure l = true
      /\ (fst (fst (Wait c w)) = None -> existsb is_failed_wait l = false).
Proof.
  induction k as [|k IH]; intros c w Hk.
  { pose proof (chain_len_pos c). lia. }
  destruct (Process (cmd c)) as [pid|] eqn:HP.
  2:{ rewrite Wait_not_started by exact HP. exists []. cbn.
      rewrite app_nil_r. repeat split; discriminate. }
  destruct (ProcessState (cmd c)) as [st|] eqn:HS.
  { rewrite Wait_already_called by congruence. exists []. cbn.
    rewrite app_nil_r. repeat split; discriminate. }
  rewrite (Wait_run c w pid HP HS). cbv zeta.
  set (span := SpanFromContext (ctx c)).
  destruct (Next c) as [n|] eqn:EN.
  - destruct (Start_trace_shape n w) as (ls & Hls & Hc1 & Hw1 & Hq1 & Hf1 & _).
    pose proof (Start_chain_len n w) as HL.
    destruct (Start n w) as [[serr n1] w1]. cbn [fst snd] in *.
    destruct serr as [er|].
    { exists (ls ++ end_events span
                 ++ finish_events span (set_Next (Some n1) c) (Some er)).
      cbn [fst snd events add_events]. rewrite Hls.
      destruct (silent_facts _ (silent_app _ _ (silent_end span)
                  (silent_finish span (set_Next (Some n1) c) (Some er))))
        as (S1 & S2 & S3 & S4 & S5 & S6).
      unfold count_events in *.
      repeat split; [now list_norm | | | discriminate].
      - rewrite !(filter_app _ ls), !length_app, S1, S2. lia.
      - apply quiet_app; [exact Hq1 | exact S3 | now rewrite Hf1]. }
    pose proof (ownWait_frame (set_Next (Some n1) c) w1 pid HP HS) as HF.
    pose proof (ownWait_outcome (set_Next (Some n1) c) w1 pid HP HS) as HO.
    destruct (ownWait (set_Next (Some n1) c) w1) as [[err c2] w2].
    destruct (HF _ _ _ eq_refl) as (_ & _ & _ & _ & l2 & H2 & Hlog).
    cbn [fst cmd set_Next] in HO, H2.
    set (ev := EvProcWait pid (os_wait (cmd c))) in *.
    assert (Ew : is_any_wait ev = true) by reflexivity.
    assert (Ec : is_any_close ev = false) by reflexivity.
    clearbody ev.
    destruct err as [er|].
    + assert (Hfail : is_failed_wait ev = true)
        by (destruct (is_failed_wait ev); [reflexivity|];
            destruct HO as [_ HO]; now specialize (HO eq_refl)).
      set (tail := mark_events c2 n1 ++ finish_events span c2 (Some er)).
      destruct (silent_facts tail (silent_app _ _ (silent_mark c2 n1)
                  (silent_finish span c2 (Some er))))
        as (S1 & S2 & S3 & S4 & S5 & S6).
      destruct (own_wait_stretch ev l2 tail (closer c2) Ew Ec Hlog S3
                  (fun _ => S4)) as (O1 & O2 & O3 & O4).
      exists (ls ++ ev :: l2 ++ EvClose (closer c2) :: tail).
      cbn [fst snd events add_events]. rewrite H2, Hls.
      unfold count_events in *.
      repeat split; [now list_norm | | | discriminate].
      * rewrite !(filter_app _ ls), !length_app, O1, O2, S1, S2. lia.
      * apply quiet_app; [exact Hq1 | exact O3 | now rewrite Hf1].
    + assert (Hok : is_failed_wait ev = false) by now apply HO.
      match goal with |- context [Wait n1 ?w'] => set (w3 := w') end.
      destruct (IH n1 w3) as (l4 & H4 & Hc4 & Hq4 & Hr4).
      { rewrite (chain_len_Next c n EN) in Hk. lia. }
      destruct (Wait n1 w3) as [[r n2] w4]. cbn [fst snd] in *.
      set (fin := finish_events span (set_Next (Some n2) c2) r).
      destruct (silent_facts fin (silent_finish span _ r))
        as (S1 & S2 & S3 & S4 & S5 & S6).
      assert (Hq : quiet_after_failure (l4 ++ fin) = true)
        by (apply quiet_app; [exact Hq4 | exact S3 | intros _; exact S4]).
      destruct (own_wait_stretch ev l2 (l4 ++ fin) (closer c2) Ew Ec Hlog Hq)
        as (O1 & O2 & O3 & O4); [now rewrite Hok|].
      exists (ls ++ ev :: l2 ++ EvClose (closer c2) :: l4 ++ fin).
      cbn [events add_events]. rewrite H4. subst w3.
      cbn [events add_events]. rewrite H2, Hls. unfold count_events in *.
      split; [now list_norm|]. split; [|split].
      * rewrite !(filter_app _ ls), !length_app, O1, O2.
        rewrite !filter_app, !length_app, S1, S2. lia.
      * apply quiet_app; [exact Hq1 | exact O3 | now rewrite Hf1].
      * intros Hr. rewrite existsb_app, Hf1, O4, Hok, existsb_app, S5.
        now rewrite (Hr4 Hr).
  - pose proof (ownWait_frame c w pid HP HS) as HF.
    pose proof (ownWait_outcome c w pid HP HS) as HO.
    destruct (ownWait c w) as [[err c2] w2].
    destruct (HF _ _ _ eq_refl) as (_ & _ & _ & _ & l2 & H2 & Hlog).
    cbn [fst] in HO.
    set (ev := EvProcWait pid (os_wait (cmd c))) in *.
    assert (Ew : is_any_wait ev = true) by reflexivity.
    assert (Ec : is_any_close ev = false) by reflexivity.
    clearbody ev.
    set (fin := finish_events span c2 err).
    destruct (silent_facts fin (silent_finish span c2 err))
      as (S1 & S2 & S3 & S4 & S5 & S6).
    destruct (own_wait_stretch ev l2 fin (closer c2) Ew Ec Hlog S3
                (fun _ => S4)) as (O1 & O2 & O3 & O4).
    exists (ev :: l2 ++ EvClose (closer c2) :: fin).
    cbn [fst snd events add_events]. rewrite H2. unfold count_events in *.
    split; [now list_norm|]. split; [|split].
    + rewrite O1, O2, S1, S2. reflexivity.
    + exact O3.
    + intros Hr. apply HO in Hr. now rewrite O4, Hr, S5.
Qed.

(** X4: in the trace of any [Wait], on a single stage or on a pipeline, as
    many closers are closed as processes are waited on; once an underlying
    wait has failed, nothing more is spawned and nothing more is waited
    on; and [Wait] returns nil only if no underlying wait in its trace
    failed. *)
Theorem Wait_trace_discipline (c : Cmd) (w : World) :
  exists l,
    events (snd (Wait c w)) = events w ++ l
    /\ count_events is_any_close l = count_events is_any_wait l
    /\ quiet_after_failure l = true
    /\ (fst (fst (Wait c w)) = None -> existsb is_failed_wait l = false).
Proof. exact (Wait_trace_invariant (chain_len c) c w (le_n _)). Qed.

(** *** The lifecycle never goes back *)

Lemma Start_keeps_state (c : Cmd) (w : World) :
  let c' := snd (fst (Start c w)) in
  (forall p, Process (cmd c) = Some p -> Process (cmd c') = Some p)
  /\ ProcessState (cmd c') = ProcessState (cmd c).
Proof.
  cbv zeta. destruct (Process (cmd c)) as [p|] eqn:HP.
  { rewrite Start_already_started by congruence. cbn. now rewrite HP. }
  split; [discriminate|].
  destruct (Start_cases c w HP) as [[er ->] | ->]; cbn;
    unfold prepared; now rewrite ProcessState_prepare.
Qed.

Lemma Wait_keeps_state (c : Cmd) (w : World) :
  let c' := snd (fst (Wait c w)) in
  (forall p, Process (cmd c) = Some p -> Process (cmd c') = Some p)
  /\ (forall s, ProcessState (cmd c) = Some s -> ProcessState (cmd c') = Some s).
Proof.
  cbv zeta. destruct (Process (cmd c)) as [pid|] eqn:HP;
    [|rewrite Wait_not_started by exact HP; cbn; now rewrite HP].
  destruct (ProcessState (cmd c)) as [st|] eqn:HS.
  { rewrite Wait_already_called by congruence. cbn. now rewrite HP, HS. }
  split; [|discriminate]. intros p [= <-].
  rewrite (Wait_run c w pid HP HS). cbv zeta.
  destruct (Next c) as [n|].
  - destruct (Start n w) as [[serr n1] w1].
    destruct serr as [er|]; [exact HP|].
    pose proof (ownWait_frame (set_Next (Some n1) c) w1 pid HP HS) as HF.
    destruct (ownWait (set_Next (Some n1) c) w1) as [[err c2] w2].
    destruct (HF _ _ _ eq_refl) as (_ & _ & _ & HP2 & _).
    destruct err as [er|]; [exact HP2|].
    match goal with |- context [Wait n1 ?w'] =>
      destruct (Wait n1 w') as [[r n2] w4] end.
    exact HP2.
  - pose proof (ownWait_frame c w pid HP HS) as HF.
    destruct (ownWait c w) as [[err c2] w2].
    now destruct (HF _ _ _ eq_refl) as (_ & _ & _ & HP2 & _).
Qed.

(** X12: the lifecycle is not reversible.  Whatever their outcome, [Start],
    [Wait] and [Run] never remove or replace the process handle of the
    descriptor they are called on, nor its exit information, and they keep
    exit information confined to descriptors that have a handle. *)
Theorem lifecycle_never_goes_back (c : Cmd) (w : World) :
  lifecycle_kept c (snd (fst (Start c w)))
  /\ lifecycle_kept c (snd (fst (Wait c w)))
  /\ lifecycle_kept c (snd (fst (Cmd_Run c w))).
Proof.
  unfold lifecycle_kept.
  destruct (Start_keeps_state c w) as (H1 & H2).
  pose proof (Start_lifecycle c w) as H3.
  split; [|split].
  - split; [exact H1|]. split; [intros s Hs; now rewrite H2 | exact H3].
  - destruct (Wait_keeps_state c w) as (H4 & H5).
    split; [exact H4|]. split; [exact H5 | apply Wait_lifecycle].
  - unfold Cmd_Run, bind.
    destruct (Start c w) as [[err c1] w1]. cbn [fst snd] in *.
    destruct err as [er|].
    { cbn. split; [exact H1|]. split; [intros s Hs; now rewrite H2|exact H3]. }
    destruct (Wait_keeps_state c1 w1) as (H4 & H5).
    pose proof (Wait_lifecycle c1 w1) as H6.
    split; [intros p Hp; apply H4, H1, Hp|].
    split; [intros s Hs; apply H5; now rewrite H2 | auto].
Qed.

End Traces.

(** * Further properties of construction *)

Section Assembly.

Context {os : OS}.

Lemma string_append_nil (s : string) : (s ++ "")%string = s.
Proof. induction s as [|a s IH]; [reflexivity|]. cbn. now rewrite IH. Qed.

(** X5: the rendering of a pipeline is the rendering of each stage's own
    command, in pipeline order, separated by " | ". *)
Theorem Cmd_String_joins_stages (c : Cmd) :
  Cmd_String c
  = String.concat " | " (map (fun n => exec_String (cmd n)) (nodes c)).
Proof.
  induction c as [c HN | c n HN IH] using Cmd_chain_ind.
  - rewrite Cmd_String_unfold, (nodes_head c), tl_nodes, HN. cbn.
    apply string_append_nil.
  - rewrite Cmd_String_unfold, (nodes_head c), tl_nodes, HN, IH.
    rewrite (nodes_head n). reflexivity.
Qed.

(** The construction errors of the stages are not touched by the wiring
    pass, and neither are the fields of the head other than its output
    sink and its closer. *)
Lemma setupCmd_keeps (k : nat) :
  forall c w, chain_len c <= k ->
    let c' := snd (fst (setupCmd c w)) in
    errs c' = errs c
    /\ fst (fst (setupCmd c w)) = first_some (errs c)
    /\ chain_len c' = chain_len c
    /\ Path (cmd c') = Path (cmd c) /\ Args (cmd c') = Args (cmd c)
    /\ Env (cmd c') = Env (cmd c) /\ Stdin (cmd c') = Stdin (cmd c)
    /\ Stderr (cmd c') = Stderr (cmd c)
    /\ Process (cmd c') = Process (cmd c)
    /\ ctx c' = ctx c /\ tracer c' = tracer c /\ logger c' = logger c.
Proof.
  induction k as [|k IH]; intros c w Hk.
  { pose proof (chain_len_pos c). lia. }
  cbv zeta. rewrite setupCmd_unfold. unfold setupCmd_body, errs.
  rewrite (nodes_head c), tl_nodes.
  destruct (Err (cmd c)) as [e|] eqn:HE.
  { munfold. cbn [fst snd]. rewrite (nodes_head c), tl_nodes. cbn.
    rewrite HE. now repeat split. }
  destruct (Next c) as [n|] eqn:EN.
  2:{ munfold. cbn [fst snd]. rewrite (nodes_head c), tl_nodes, EN. cbn.
      rewrite HE. now repeat split. }
  pose proof (chain_len_Next c n EN) as HL.
  assert (HR : forall c1 n1 w1,
            Err (cmd c1) = None -> chain_len n1 = chain_len n ->
            errs n1 = errs n ->
            let r := setupCmd n1 w1 in
            let c' := set_Next (Some (snd (fst r))) c1 in
            map (fun n0 => Err (cmd n0)) (nodes c')
            = Err (cmd c) :: map (fun n0 => Err (cmd n0)) (nodes n)
            /\ fst (fst r)
               = first_some (Err (cmd c) :: map (fun n0 => Err (cmd n0)) (nodes n))
            /\ chain_len c' = chain_len c).
  { intros c1 n1 w1 H1 H2 H3. cbv zeta.
    destruct (IH n1 w1 ltac:(lia)) as (I1 & I2 & I3 & _).
    rewrite nodes_set_Next. cbn [map]. fold (errs (snd (fst (setupCmd n1 w1)))).
    rewrite (chain_len_Next (set_Next (Some (snd (fst (setupCmd n1 w1)))) c1)
               _ eq_refl).
    rewrite I1, I2, H3, HE, I3, H2, HL. cbn. rewrite H1. now repeat split. }
  destruct (Err (cmd n)) as [en|] eqn:HEn; munfold.
  - destruct (HR c n w HE eq_refl eq_refl) as (R1 & R2 & R3).
    destruct (setupCmd n w) as [[e n2] w2]. cbn [fst snd] in *.
    now repeat split.
  - pose proof (wire_fields (fresh w) c n) as HW.
    assert (HWn : errs (snd (wire (fresh w) c n)) = errs n)
      by (unfold errs; rewrite (nodes_head (snd (wire (fresh w) c n))),
            (nodes_head n),
            (nodes_by_Next n (snd (wire (fresh w) c n)) eq_refl);
          reflexivity).
    assert (HWc : cmd (fst (wire (fresh w) c n))
                  = set_Stdout (WPipe (fresh w)) (cmd c)) by reflexivity.
    destruct (wire (fresh w) c n) as [c1 n1]. cbn [fst snd] in *.
    destruct HW as (Ht1 & Hl1 & He1 & _ & Hctx & _ & _ & _ & HNn & _).
    match goal with |- context [setupCmd n1 ?w'] => set (w1 := w') end.
    destruct (HR c1 n1 w1) as (R1 & R2 & R3);
      [congruence | now apply chain_len_by_Next | exact HWn |].
    destruct (setupCmd n1 w1) as [[e n2] w2]. cbn [fst snd cmd set_Next] in *.
    rewrite HWc. now repeat split.
Qed.

(** X6: the wiring pass returns the construction error of the first stage,
    in pipeline order, that carries one, or nil when none does; it changes
    no stage's construction error and neither the length of the chain nor
    the path, arguments, environment, input source and error sink of the
    head. *)
Theorem setupCmd_returns_first_error (c : Cmd) (w : World) :
  let '(e, c', w') := setupCmd c w in
  e = first_some (errs c)
  /\ errs c' = errs c
  /\ chain_len c' = chain_len c
  /\ Path (cmd c') = Path (cmd c) /\ Args (cmd c') = Args (cmd c)
  /\ Env (cmd c') = Env (cmd c) /\ Stdin (cmd c') = Stdin (cmd c)
  /\ Stderr (cmd c') = Stderr (cmd c).
Proof.
  destruct (setupCmd_keeps (chain_len c) c w (le_n _))
    as (H1 & H2 & H3 & H4 & H5 & H6 & H7 & H8 & _).
  destruct (setupCmd c w) as [[e c'] w']. cbn [fst snd] in *.
  now repeat split.
Qed.

(** *** The options, one after the other *)

Lemma detach_fold_env (envs : list (string * string)) :
  forall c,
    detach (fold_left
              (fun c kv => upd_cmd (set_Env (Env (cmd c) ++ [env_entry kv])) c)
              envs c)
    = fold_left
        (fun c kv => upd_cmd (set_Env (Env (cmd c) ++ [env_entry kv])) c)
        envs (detach c).
Proof.
  induction envs as [|kv envs IH]; intros c; [reflexivity|].
  cbn [fold_left]. now rewrite IH.
Qed.

Lemma detach_applySimple (o : Option) (c : Cmd) :
  detach (applySimple o c) = applySimple o (detach c).
Proof. destruct o; try reflexivity. apply detach_fold_env. Qed.

(** The head after the options is the head after the direct assignments
    among them: a [Pipe] option changes nothing but the link. *)
Lemma applyOptions_head (opts : list Option) :
  forall c w,
    detach (fst (applyOptions applyOption opts c w))
    = fold_left (fun c o => applySimple o c) opts (detach c).
Proof.
  induction opts as [|o opts IH]; intros c w; [reflexivity|].
  cbn [applyOptions fold_left]. unfold bind.
  assert (H : detach (fst (applyOption o c w)) = applySimple o (detach c)).
  { destruct o as [name args| | | | | | | |];
      try (cbn [applyOption]; unfold ret; cbn [fst];
           apply detach_applySimple).
    cbn [applyOption applySimple].
    now destruct (Pipe_applyOption_chain name args c w) as (_ & HD & _). }
  destruct (applyOption o c w) as [c1 w1]. cbn [fst] in H.
  now rewrite IH, H.
Qed.

Lemma fold_env_Env (envs : list (string * string)) :
  forall c,
    let c' := fold_left
                (fun c kv => upd_cmd (set_Env (Env (cmd c) ++ [env_entry kv])) c)
                envs c in
    Env (cmd c') = Env (cmd c) ++ map env_entry envs
    /\ Path (cmd c') = Path (cmd c) /\ Args (cmd c') = Args (cmd c)
    /\ Stdout (cmd c') = Stdout (cmd c)
    /\ tracer c' = tracer c /\ logger c' = logger c /\ ctx c' = ctx c.
Proof.
  induction envs as [|kv envs IH]; intros c; cbv zeta.
  - cbn. rewrite app_nil_r. now repeat split.
  - cbn [fold_left map].
    destruct (IH (upd_cmd (set_Env (Env (cmd c) ++ [env_entry kv])) c))
      as (H1 & H2 & H3 & H4 & H5 & H6 & H7).
    rewrite H1, H2, H3, H4, H5, H6, H7. cbn. rewrite <- app_assoc.
    now repeat split.
Qed.

(** What the direct assignments add up to. *)
Lemma fold_applySimple (opts : list Option) :
  forall c,
    let c' := fold_left (fun c o => applySimple o c) opts c in
    Path (cmd c') = Path (cmd c)
    /\ Env (cmd c') = Env (cmd c) ++ env_of_options opts
    /\ Args (cmd c')
       = match last_args opts with
         | Some args => Path (cmd c) :: args
         | None => Args (cmd c)
         end
    /\ tracer c'
       = fold_left (fun acc o => match o with
                                 | WithTracer t => t
                                 | _ => acc
                                 end) opts (tracer c)
    /\ logger c'
       = fold_left (fun acc o => match o with
                                 | WithLogger l => l
                                 | _ => acc
                                 end) opts (logger c)
    /\ Stdout (cmd c')
       = fold_left (fun acc o => match o with
                                 | WithStdout w => w
                                 | _ => acc
                                 end) opts (Stdout (cmd c))
    /\ ctx c' = ctx c.
Proof.
  induction opts as [|o opts IH] using rev_ind; intros c; cbv zeta.
  { cbn. rewrite app_nil_r. now repeat split. }
  unfold last_args, env_of_options in *.
  rewrite !fold_left_app, flat_map_app. cbn [fold_left flat_map].
  destruct (IH c) as (H1 & H2 & H3 & H4 & H5 & H6 & H7).
  set (c1 := fold_left (fun c o => applySimple o c) opts c) in *.
  destruct o as [name args|args|key value|envs|r|wr|wr|t|l];
    cbn [applySimple]; rewrite ?app_nil_r;
    try (cbn; rewrite ?H1, ?H2, ?H3, ?H4, ?H5, ?H6, ?H7, <- ?app_assoc;
         now repeat split).
  destruct (fold_env_Env envs c1) as (E1 & E2 & E3 & E4 & E5 & E6 & E7).
  rewrite E1, E2, E3, E4, E5, E6, E7, H1, H2, H3, H4, H5, H6, H7.
  rewrite <- app_assoc. now repeat split.
Qed.

Lemma Args_exec_CommandContext (name : string) :
  Args (exec_CommandContext name) = [name].
Proof.
  unfold exec_CommandContext.
  destruct (String.eqb (filepath_Base name) name); [|reflexivity].
  destruct (exec_LookPath name) as [lp [er|]];
    destruct (String.eqb lp ""); reflexivity.
Qed.

Lemma CommandContext_run (ctx0 : Context) (name : string) (opts : list Option)
    (w : World) :
  CommandContext ctx0 name opts w
  = let c0 := mkCmd (initial_cmd name) None ctx0 (fresh w) NopCloser
                    NoopTracer NoOpLogger in
    let '(c1, w1) := applyOptions applyOption opts c0
                       (mkWorld (events w) (S (fresh w))) in
    let '(e, c2, w2) := setupCmd c1 w1 in
    (upd_cmd (set_Err e) c2, w2).
Proof.
  unfold CommandContext, CommandContext_with, newCmd. munfold.
  cbv zeta. unfold initial_cmd, upd_cmd. cbn [cmd set_cmd].
  destruct (applyOptions applyOption opts _ _) as [c1 w1].
  now destruct (setupCmd c1 w1) as [[e c2] w2].
Qed.

(** X7: the head of a constructed descriptor.  Its path is the one the
    resolution gave; its argument list is the path followed by the
    arguments of the last [WithArgs] option, or the name as given when
    there is none; its environment is the environment of the calling
    process followed by the entries of the [WithEnv] and [WithEnvs] options
    in the order given, nothing being replaced; the context is the one
    passed in. *)
Theorem CommandContext_head (ctx0 : Context) (name : string)
    (opts : list Option) (w : World) :
  let c := fst (CommandContext ctx0 name opts w) in
  Path (cmd c) = Path (exec_CommandContext (filepath_Clean name))
  /\ Args (cmd c)
     = match last_args opts with
       | Some args => Path (cmd c) :: args
       | None => [filepath_Clean name]
       end
  /\ Env (cmd c) = os_Environ ++ env_of_options opts
  /\ ctx c = ctx0.
Proof.
  cbv zeta. rewrite CommandContext_run. cbv zeta.
  match goal with |- context [applyOptions applyOption opts ?c0 ?w0] =>
    pose proof (applyOptions_head opts c0 w0) as HH;
    destruct (fold_applySimple opts (detach c0)) as (F1 & F2 & F3 & _ & _ & _ & F7);
    destruct (applyOptions applyOption opts c0 w0) as [c1 w1] end.
  cbn [fst] in HH. rewrite <- HH in F1, F2, F3, F7.
  cbn [detach set_Next cmd ctx] in F1, F2, F3, F7.
  destruct (setupCmd_keeps (chain_len c1) c1 w1 (le_n _))
    as (_ & _ & _ & K1 & K2 & K3 & _ & _ & _ & K4 & _).
  destruct (setupCmd c1 w1) as [[e c2] w2]. cbn [fst snd] in *.
  unfold upd_cmd. cbn [cmd set_cmd set_Err Path Args Env ctx].
  rewrite K1, K2, K3, K4, F1, F2, F3, F7. unfold initial_cmd.
  cbn [set_Env Path Args Env]. rewrite Args_exec_CommandContext.
  now repeat split.
Qed.

(** *** The construction errors along a constructed pipeline *)

Lemma errs_head (c : Cmd) :
  errs c = Err (cmd c) :: match Next c with
                          | Some n => errs n
                          | None => []
                          end.
Proof. unfold errs. now destruct c as [e [n|] y b cl t l]. Qed.

Lemma new_stage_Err (x : Context) (name : string) (args : list string) (w : World) :
  Err (cmd (fst (CommandContext_with (fun o c => ret (applySimple o c))
                   x name [WithArgs args] w)))
  = resolve name.
Proof.
  unfold CommandContext_with, newCmd, applyOptions. munfold.
  match goal with |- context [setupCmd ?c ?w'] =>
    destruct (setupCmd_single c w' eq_refl) as [H1 H2];
    destruct (setupCmd c w') as [[e c'] w''] end.
  cbn [fst snd] in *. subst c' e. reflexivity.
Qed.

Lemma errs_Pipe_applyOption (name : string) (args : list string) (c : Cmd) :
  forall w,
    errs (fst (Pipe_applyOption name args c w)) = errs c ++ [resolve name].
Proof.
  induction c as [c HN | c n HN IH] using Cmd_chain_ind; intros w.
  - replace (Pipe_applyOption name args c w) with
      (let (n, w') := CommandContext_with (fun o c => ret (applySimple o c))
                        (ctx c) name [WithArgs args] w in
       (set_Next (Some n) c, w'))
      by (destruct c as [e nx y b cl t l]; cbn in HN; subst nx; reflexivity).
    pose proof (new_stage_shape (ctx c) name args w) as [_ HNn].
    pose proof (new_stage_Err (ctx c) name args w) as HEn.
    cbv zeta in HNn.
    destruct (CommandContext_with _ (ctx c) name [WithArgs args] w) as [n w'].
    cbn [fst] in *. rewrite (errs_head c), HN, errs_head. cbn [Next set_Next].
    rewrite (errs_head n), HNn, HEn. reflexivity.
  - replace (Pipe_applyOption name args c w) with
      (let (n', w') := Pipe_applyOption name args n w in
       (set_Next (Some n') c, w'))
      by (destruct c as [e nx y b cl t l]; cbn in HN; subst nx; reflexivity).
    specialize (IH w).
    destruct (Pipe_applyOption name args n w) as [n' w']. cbn [fst] in *.
    rewrite (errs_head c), HN, errs_head. cbn [Next set_Next]. now rewrite IH.
Qed.

Lemma errs_applySimple (o : Option) (c : Cmd) :
  errs (applySimple o c) = errs c.
Proof.
  destruct (applySimple_core o c) as (H1 & _ & H3).
  now rewrite (errs_head c), errs_head, H1, H3.
Qed.

Lemma errs_applyOptions (opts : list Option) :
  forall c w,
    errs (fst (applyOptions applyOption opts c w))
    = errs c ++ map resolve (pipe_names opts).
Proof.
  induction opts as [|o opts IH]; intros c w.
  { cbn. now rewrite app_nil_r. }
  cbn [applyOptions]. unfold bind.
  assert (H : errs (fst (applyOption o c w))
              = errs c ++ map resolve (pipe_names [o])).
  { destruct o as [name args| | | | | | | |];
      try (cbn [applyOption]; unfold ret; cbn [fst pipe_names flat_map map];
           rewrite app_nil_r; apply errs_applySimple).
    cbn [applyOption]. apply errs_Pipe_applyOption. }
  destruct (applyOption o c w) as [c1 w1]. cbn [fst] in H.
  rewrite IH, H. unfold pipe_names. cbn [flat_map].
  rewrite app_nil_r, map_app, <- app_assoc. reflexivity.
Qed.

Lemma length_errs (c : Cmd) : length (errs c) = chain_len c.
Proof.
  induction c as [c HN | c n HN IH] using Cmd_chain_ind;
    rewrite errs_head, HN; cbn [length].
  - destruct c as [e nx y b cl t l]; cbn in HN; subst nx. reflexivity.
  - now rewrite IH, (chain_len_Next c n HN).
Qed.

Lemma first_some_head {A : Type} (l : list (option A)) :
  first_some (first_some l :: tl l) = first_some l.
Proof. destruct l as [|[a|] l]; cbn; try reflexivity. now destruct (first_some l). Qed.

(** X8: a constructed pipeline has one stage more than [Pipe] options were
    given, whatever stands between them; each stage after the head keeps
    the outcome of resolving its own name; and [Err] of the head is the
    resolution error of the first stage, in pipeline order, whose name
    does not resolve, nil when all resolve.  When it is not nil,
    [RunWithContext] returns the descriptor with that error, and from
    construction to return nothing is written to the trace but log
    events: no span is opened and nothing is spawned, not even the stages
    that resolve. *)
Theorem pipeline_construction_error (ctx0 : Context) (name : string)
    (opts : list Option) (w : World) :
  let '(c, w1) := CommandContext ctx0 name opts w in
  chain_len c = S (length (pipe_names opts))
  /\ Err (cmd c) = first_some (resolve name :: map resolve (pipe_names opts))
  /\ tl (errs c) = map resolve (pipe_names opts)
  /\ (forall e, Err (cmd c) = Some e ->
        RunWithContext ctx0 name opts w
        = (c, Some e, add_events w1 [EvLog (logger c) (Error_msg e) []])
        /\ exists l, events w1 = events w ++ l /\ forallb is_log l = true).
Proof.
  pose proof (logs_CommandContext ctx0 name opts w) as HL.
  assert (HR : RunWithContext ctx0 name opts w
               = let (c, w1) := CommandContext ctx0 name opts w in
                 match Err (cmd c) with
                 | Some e0 => (c, Some e0,
                               add_events w1 [EvLog (logger c) (Error_msg e0) []])
                 | None => let '(err, c', w2) := Cmd_Run c w1 in (c', err, w2)
                 end).
  { unfold RunWithContext, bind.
    destruct (CommandContext ctx0 name opts w) as [c w1].
    destruct (Err (cmd c)); [reflexivity|].
    unfold ret. now destruct (Cmd_Run c w1) as [[err c'] w2]. }
  rewrite CommandContext_run in *. cbv zeta in *.
  match goal with |- context [applyOptions applyOption opts ?c0 ?w0] =>
    pose proof (errs_applyOptions opts c0 w0) as HE;
    rewrite (errs_head c0) in HE;
    destruct (applyOptions applyOption opts c0 w0) as [c1 w1] end.
  cbn [fst Next cmd app] in HE.
  change (Err (initial_cmd name)) with (resolve name) in HE.
  destruct (setupCmd_keeps (chain_len c1) c1 w1 (le_n _))
    as (K1 & K2 & K3 & _).
  destruct (setupCmd c1 w1) as [[e c2] w2]. cbn [fst snd] in *.
  rewrite HE in K1, K2. subst e.
  assert (HT : tl (errs (upd_cmd (set_Err
                  (first_some (resolve name :: map resolve (pipe_names opts))))
                  c2)) = map resolve (pipe_names opts)).
  { rewrite errs_head. cbn [tl upd_cmd set_cmd Next].
    rewrite (errs_head c2) in K1. now injection K1. }
  repeat split.
  - rewrite <- (length_errs c1), HE in K3. cbn [length] in K3.
    rewrite length_map in K3. rewrite <- K3.
    apply chain_len_by_Next. reflexivity.
  - exact HT.
  - cbn [cmd upd_cmd set_cmd set_Err Err] in H. rewrite H in HR.
    cbn [cmd upd_cmd set_cmd set_Err Err] in HR. rewrite H. exact HR.
  - exact HL.
Qed.

(** *** The pipes of a wired pipeline *)

Lemma tail_stage_by_Next (c c' : Cmd) :
  Next c' = Next c -> Next c <> None -> tail_stage c' = tail_stage c.
Proof.
  destruct c as [e [n|] y b cl t l], c' as [e' [n'|] y' b' cl' t' l'];
    cbn; try congruence; try easy.
Qed.

Lemma tail_stage_Next (c n : Cmd) :
  Next c = Some n -> tail_stage c = tail_stage n.
Proof. destruct c as [e [m|] y b cl t l]; cbn; congruence. Qed.

Lemma tail_stage_last (c : Cmd) : Next c = None -> tail_stage c = c.
Proof. destruct c as [e [m|] y b cl t l]; cbn; congruence. Qed.

Lemma setupCmd_links (k : nat) :
  forall c w, chain_len c <= k ->
    Forall (fun n => Err (cmd n) = None) (nodes c) ->
    let c' := snd (fst (setupCmd c w)) in
    linked_from (fresh w) (nodes c')
    /\ Stdout (cmd (tail_stage c')) = Stdout (cmd c)
    /\ closer (tail_stage c') = closer (tail_stage c)
    /\ Forall (fun n => Env (cmd n) = Env (cmd c)
                        /\ Stderr (cmd n) = Stderr (cmd c)
                        /\ tracer n = tracer c /\ logger n = logger c)
              (nodes c').
Proof.
  induction k as [|k IH]; intros c w Hk Hall.
  { pose proof (chain_len_pos c). lia. }
  cbv zeta. rewrite setupCmd_unfold. unfold setupCmd_body.
  rewrite (nodes_head c), tl_nodes in Hall.
  apply Forall_cons_iff in Hall as [HE Hall]. rewrite HE.
  destruct (Next c) as [n|] eqn:EN.
  2:{ munfold. cbn [fst snd].
      rewrite (nodes_head c), tl_nodes, EN, (tail_stage_last c EN).
      cbn [linked_from]. repeat split. now repeat constructor. }
  pose proof (chain_len_Next c n EN) as HL.
  rewrite (nodes_head n) in Hall. pose proof Hall as Hall'.
  apply Forall_cons_iff in Hall' as [HEn Hrest]. rewrite HEn. munfold.
  set (p := fresh w).
  assert (HW : let c1 := fst (wire p c n) in
               let n1 := snd (wire p c n) in
               Stdout (cmd c1) = WPipe p /\ closer c1 = PipeWriter p
               /\ Env (cmd c1) = Env (cmd c) /\ Stderr (cmd c1) = Stderr (cmd c)
               /\ tracer c1 = tracer c /\ logger c1 = logger c
               /\ Stdin (cmd n1) = RPipe p /\ Stdout (cmd n1) = Stdout (cmd c)
               /\ Env (cmd n1) = Env (cmd c) /\ Stderr (cmd n1) = Stderr (cmd c)
               /\ tracer n1 = tracer c /\ logger n1 = logger c
               /\ Err (cmd n1) = Err (cmd n) /\ Next n1 = Next n
               /\ closer n1 = closer n)
    by (cbv zeta; now repeat split).
  cbv zeta in HW. destruct (wire p c n) as [c1 n1]. cbn [fst snd] in HW.
  destruct HW as (W1 & W2 & W3 & W4 & W5 & W6 & W7 & W8 & W9 & W10 & W11
                  & W12 & W13 & W14 & W15).
  match goal with |- context [setupCmd n1 ?w'] => set (w1 := w') end.
  assert (Hall1 : Forall (fun n0 => Err (cmd n0) = None) (nodes n1)).
  { rewrite (nodes_head n1), (nodes_by_Next n n1 W14).
    constructor; [congruence | exact Hrest]. }
  destruct (IH n1 w1 ltac:(rewrite (chain_len_by_Next n n1 W14); lia) Hall1)
    as (I1 & I2 & I3 & I4).
  destruct (setupCmd_keeps (chain_len n1) n1 w1 (le_n _))
    as (_ & _ & _ & _ & _ & _ & K7 & _).
  destruct (setupCmd n1 w1) as [[e n2] w2]. cbn [fst snd] in *.
  rewrite nodes_set_Next. repeat split.
  - rewrite (nodes_head n2) in *. cbn [linked_from]. exists p.
    repeat split; try assumption; try reflexivity. congruence.
  - rewrite (tail_stage_Next (set_Next (Some n2) c1) n2 eq_refl). congruence.
  - rewrite (tail_stage_Next (set_Next (Some n2) c1) n2 eq_refl), I3.
    rewrite (tail_stage_Next c n EN).
    destruct (Next n) as [m|] eqn:ENn.
    + apply f_equal, tail_stage_by_Next; congruence.
    + rewrite (tail_stage_last n1), (tail_stage_last n); congruence.
  - constructor; [now repeat split|].
    eapply Forall_impl; [|exact I4]. cbv beta.
    intros a (A1 & A2 & A3 & A4). repeat split; congruence.
Qed.

(** X9: the wiring pass on a chain without construction errors.  Each
    stage but the last has a pipe of its own: its output sink and its
    closer are the write end, and the input source of the stage after it
    is the read end; the last stage writes to the sink the head had before
    the pass and keeps its closer; and every stage has the environment, the
    error sink, the tracer and the logger of the head. *)
Theorem wiring_links_stages (c : Cmd) (w : World) :
  Forall (fun n => Err (cmd n) = None) (nodes c) ->
  let c' := snd (fst (setupCmd c w)) in
  linked_from (fresh w) (nodes c')
  /\ Stdout (cmd (tail_stage c')) = Stdout (cmd c)
  /\ closer (tail_stage c') = closer (tail_stage c)
  /\ Forall (fun n => Env (cmd n) = Env (cmd c)
                      /\ Stderr (cmd n) = Stderr (cmd c)
                      /\ tracer n = tracer c /\ logger n = logger c)
            (nodes c').
Proof. exact (setupCmd_links (chain_len c) c w (le_n _)). Qed.

Lemma first_some_none {A : Type} (l : list (option A)) :
  Forall (fun o => o = None) l -> first_some l = None.
Proof. induction 1 as [|o l Ho _ IH]; [reflexivity|]. now subst o. Qed.

Lemma errs_none (c : Cmd) :
  Forall (fun o => o = None) (errs c)
  -> Forall (fun n => Err (cmd n) = None) (nodes c).
Proof. unfold errs. intros H. now apply Forall_map in H. Qed.

Lemma Stdout_exec_CommandContext (name : string) :
  Stdout (exec_CommandContext name) = WNil.
Proof.
  unfold exec_CommandContext.
  destruct (String.eqb (filepath_Base name) name); [|reflexivity].
  destruct (exec_LookPath name) as [lp [er|]];
    destruct (String.eqb lp ""); reflexivity.
Qed.

(** X10: a pipeline all of whose names resolve, as [CommandContext]
    returns it.  [Err] is nil; every stage has the tracer and the logger of
    the last [WithTracer] and [WithLogger] options (the no-op ones when
    there is none) and the environment of the head, wherever those options
    stand relative to the [Pipe] options; consecutive stages are joined by
    pipes of their own; and the last stage writes to the sink of the last
    [WithStdout] option. *)
Theorem constructed_pipeline_is_wired (ctx0 : Context) (name : string)
    (opts : list Option) (w : World) :
  resolve name = None ->
  Forall (fun nm => resolve nm = None) (pipe_names opts) ->
  let c := fst (CommandContext ctx0 name opts w) in
  Err (cmd c) = None
  /\ shares_config c
  /\ tracer c = last_tracer opts /\ logger c = last_logger opts
  /\ Forall (fun n => Env (cmd n) = os_Environ ++ env_of_options opts)
            (nodes c)
  /\ (exists lo, linked_from lo (nodes c))
  /\ Stdout (cmd (tail_stage c)) = last_stdout opts.
Proof.
  intros Hname Hpipes. cbv zeta. rewrite CommandContext_run. cbv zeta.
  match goal with |- context [applyOptions applyOption opts ?c0 ?w0] =>
    pose proof (errs_applyOptions opts c0 w0) as HE;
    rewrite (errs_head c0) in HE;
    pose proof (applyOptions_head opts c0 w0) as HH;
    destruct (fold_applySimple opts (detach c0))
      as (_ & F2 & _ & F4 & F5 & F6 & _);
    destruct (applyOptions applyOption opts c0 w0) as [c1 w1] end.
  cbn [fst Next cmd app] in HE, HH.
  change (Err (initial_cmd name)) with (resolve name) in HE.
  rewrite <- HH in F2, F4, F5, F6.
  cbn [detach set_Next cmd tracer logger] in F2, F4, F5, F6.
  unfold initial_cmd in F2, F6. cbn [set_Env Env Stdout] in F2, F6.
  rewrite Stdout_exec_CommandContext in F6.
  fold (last_tracer opts) in F4. fold (last_logger opts) in F5.
  fold (last_stdout opts) in F6.
  assert (Hall : Forall (fun o => o = None) (errs c1)).
  { rewrite HE. constructor; [exact Hname|]. now apply Forall_map. }
  destruct (setupCmd_keeps (chain_len c1) c1 w1 (le_n _))
    as (K1 & K2 & _ & _ & _ & _ & _ & _ & _ & _ & K11 & K12).
  destruct (setupCmd_links (chain_len c1) c1 w1 (le_n _) (errs_none c1 Hall))
    as (L1 & L2 & _ & L4).
  destruct (setupCmd c1 w1) as [[e c2] w2]. cbn [fst snd] in *.
  rewrite (first_some_none _ Hall) in K2. subst e.
  assert (HE2 : Err (cmd c2) = None).
  { rewrite <- K1 in Hall. rewrite errs_head in Hall. now inversion Hall. }
  rewrite (upd_set_Err_same c2 None HE2).
  split; [exact HE2|]. split; [|split; [congruence|split; [congruence|]]].
  { unfold shares_config. eapply Forall_impl; [|exact L4]. cbv beta.
    intros a (_ & _ & A3 & A4). split; congruence. }
  split; [|split; [now exists (fresh w1) | congruence]].
  eapply Forall_impl; [|exact L4]. cbv beta. intros a (A1 & _). congruence.
Qed.

(** X11: what the spawn primitive receives.  A [Start] that passes its
    guard opens the span first and then calls the spawn primitive exactly
    once, with the path, the argument list, the input source and the
    output sink of the descriptor as they were, the environment followed
    by the TRACE_ID and SPAN_ID of the span just opened, and the error sink
    rewired towards the private buffer; it returns nil exactly when the
    process was spawned, and the descriptor then holds the new process
    handle. *)
Theorem Start_hands_over (c : Cmd) (w : World) :
  Process (cmd c) = None ->
  let '(r, c', w') := Start c w in
  exists e res post,
    events w' = events w ++ span_event c w :: EvSpawn e res :: post
    /\ count_events is_any_spawn (EvSpawn e res :: post) = 1
    /\ Path e = Path (cmd c) /\ Args e = Args (cmd c)
    /\ Stdin e = Stdin (cmd c) /\ Stdout e = Stdout (cmd c)
    /\ Env e = Env (cmd c) ++ trace_env (fresh w)
    /\ Stderr e = match Stderr (cmd c) with
                  | WNil => WBuffer (stdErr c)
                  | s => io_MultiWriter [WBuffer (stdErr c); s]
                  end
    /\ match res with
       | Spawned pid => r = None /\ Process (cmd c') = Some pid
       | SpawnFailed er => r = Some er /\ Process (cmd c') = None
       end.
Proof.
  intros HP.
  assert (HF : Path (cmd (prepared c w)) = Path (cmd c)
               /\ Stdin (cmd (prepared c w)) = Stdin (cmd c)
               /\ Stdout (cmd (prepared c w)) = Stdout (cmd c)
               /\ Stderr (cmd (prepared c w))
                  = match Stderr (cmd c) with
                    | WNil => WBuffer (stdErr c)
                    | s => io_MultiWriter [WBuffer (stdErr c); s]
                    end).
  { unfold prepared, prepare, propagate_ctx, inject_trace_env, wire_stderr.
    destruct c as [e [n|] y b cl t l]; simpl; destruct (Stderr e);
      now repeat split. }
  destruct HF as (F1 & F2 & F3 & F4).
  assert (HA : Args (cmd (prepared c w)) = Args (cmd c))
    by (unfold prepared; apply Args_prepare).
  assert (HEnv : Env (cmd (prepared c w)) = Env (cmd c) ++ trace_env (fresh w))
    by (unfold prepared; apply Env_prepare).
  assert (HP1 : Process (cmd (prepared c w)) = None)
    by (unfold prepared; now rewrite Process_prepare).
  destruct (Start_cases c w HP) as [[er ->] | ->];
    eexists; eexists; eexists;
    (split; [cbn [events add_events]; reflexivity|]);
    repeat split; try assumption; reflexivity.
Qed.

End Assembly.

(** * What [Start] records on the span *)

Section Recording.

Context {os : OS}.

Lemma recorded_args_app (l1 l2 : list Event) :
  recorded_args (l1 ++ l2) = recorded_args l1 ++ recorded_args l2.
Proof. unfold recorded_args. apply flat_map_app. Qed.

Lemma recorded_args_logs (l : list Event) :
  forallb is_log l = true -> recorded_args l = [].
Proof.
  induction l as [|ev l IH]; [reflexivity|]. cbn [forallb].
  intros H. apply andb_true_iff in H as [H1 H2].
  destruct ev; try discriminate. cbn. now apply IH.
Qed.

(** Past its guard, [Start] opens one span and calls the spawn primitive
    once, and both carry the argument list of the receiver. *)
Lemma Start_args_run (c : Cmd) (w : World) :
  Process (cmd c) = None ->
  exists l,
    events (snd (Start c w)) = events w ++ l
    /\ recorded_args l = [Args (cmd c)]
    /\ spawned_args l = [Args (cmd c)].
Proof.
  intros HP.
  assert (HA : Args (cmd (prepared c w)) = Args (cmd c))
    by (unfold prepared; apply Args_prepare).
  destruct (Start_cases c w HP) as [[er ->] | ->]; cbn [snd events add_events].
  - exists (failed_start_events c w er). split; [reflexivity|].
    unfold failed_start_events, span_event. cbn. now rewrite HA.
  - exists (good_start_events c w). split; [reflexivity|].
    unfold good_start_events, span_event. cbn. now rewrite HA.
Qed.

(** The argument list of a constructed head is never empty: it is the
    name as given, or the path followed by the arguments of an option. *)
Lemma CommandContext_Args (ctx0 : Context) (name : string)
    (opts : list Option) (w : World) :
  Args (cmd (fst (CommandContext ctx0 name opts w))) <> [].
Proof.
  rewrite CommandContext_run. cbv zeta.
  match goal with |- context [applyOptions applyOption opts ?c0 ?w0] =>
    pose proof (applyOptions_head opts c0 w0) as HH;
    destruct (fold_applySimple opts (detach c0)) as (_ & _ & F3 & _);
    destruct (applyOptions applyOption opts c0 w0) as [c1 w1] end.
  cbn [fst] in HH. rewrite <- HH in F3. cbn [detach set_Next cmd] in F3.
  destruct (setupCmd_keeps (chain_len c1) c1 w1 (le_n _))
    as (_ & _ & _ & _ & K2 & _).
  destruct (setupCmd c1 w1) as [[e c2] w2]. cbn [fst snd] in *.
  unfold upd_cmd. cbn [cmd set_cmd set_Err Args].
  rewrite K2, F3. unfold initial_cmd. cbn [set_Env Args].
  rewrite Args_exec_CommandContext. now destruct (last_args opts).
Qed.

(** C7, as the code has it: the package has no option that takes a
    transform of the argument list, and [Start] applies none.  The
    [exec.args] attribute of the span that [Start] opens is the argument
    list of the descriptor as it is, the very list the spawn primitive
    receives; it is the image of that list under a transform only for a
    transform that leaves the list as it is. *)
Theorem Start_records_the_spawned_args (c : Cmd) (w : World) :
  Process (cmd c) = None ->
  let '(err, c', w') := Start c w in
  exists l,
    events w' = events w ++ l
    /\ recorded_args l = [Args (cmd c)]
    /\ spawned_args l = [Args (cmd c)]
    /\ forall f : list string -> list string,
         recorded_args l = [f (Args (cmd c))] <-> f (Args (cmd c)) = Args (cmd c).
Proof.
  intros HP. destruct (Start_args_run c w HP) as (l & H1 & H2 & H3).
  destruct (Start c w) as [[err c'] w']. cbn [snd] in H1.
  exists l. split; [exact H1|]. split; [exact H2|]. split; [exact H3|].
  intros f. rewrite H2. split.
  - intros E. injection E as E. now symmetry.
  - intros E. now rewrite E.
Qed.

End Recording.

(** * The further properties on explicit pipelines *)

Module Checks.
Import Fixture Inputs.

Lemma Wait_finishes_its_span_witness :
  let c := fst two_stages in
  let w := snd two_stages in
  Process (cmd c) = Some 4 /\ ProcessState (cmd c) = None
  /\ SpanFromContext (ctx c) = Some 3
  /\ exists l, events (snd (Wait c w)) = events w ++ l.
Proof.
  cbv zeta.
  assert (H1 : Process (cmd (fst two_stages)) = Some 4)
    by (vm_compute; reflexivity).
  assert (H2 : ProcessState (cmd (fst two_stages)) = None)
    by (vm_compute; reflexivity).
  assert (H3 : SpanFromContext (ctx (fst two_stages)) = Some 3)
    by (vm_compute; reflexivity).
  split; [exact H1|]. split; [exact H2|]. split; [exact H3|].
  pose proof (Wait_finishes_its_span (fst two_stages) (snd two_stages) 4 3
                H1 H2 H3) as H.
  destruct (Wait (fst two_stages) (snd two_stages)) as [[r c'] w'].
  destruct H as [pre H]. cbn [snd]. rewrite H.
  eexists. reflexivity.
Defined.

Lemma Run_single_stage_witness :
  Next echo_created = None /\ Process (cmd echo_created) = None
  /\ ProcessState (cmd echo_created) = None
  /\ exists l, events (snd (Cmd_Run echo_created w0)) = events w0 ++ l
               /\ end_count (fresh w0) l = 1.
Proof.
  split; [reflexivity|]. split; [reflexivity|]. split; [reflexivity|].
  pose proof (Run_single_stage echo_created w0 eq_refl eq_refl eq_refl) as H.
  destruct (Cmd_Run echo_created w0) as [[r c'] w'].
  destruct H as (l & H1 & _ & H3 & _). exists l. now split.
Defined.

Lemma next_span_is_child_witness :
  let c := fst (Command "echo" [WithArgs ["a"]; Pipe "sed" ["x"]] w0) in
  let w := snd (Command "echo" [WithArgs ["a"]; Pipe "sed" ["x"]] w0) in
  Next c = Some (next_of c) /\ ProcessState (cmd c) = None
  /\ Process (cmd (next_of c)) = None
  /\ fst (fst (Start c w)) = None
  /\ exists l,
       events (snd (Wait (snd (fst (Start c w))) (snd (Start c w))))
       = events (snd (Start c w))
         ++ EvSpanStart (fresh (snd (Start c w))) (tracer (next_of c))
              (Some (fresh w)) "exec:run" (Args (cmd (next_of c))) :: l.
Proof.
  cbv zeta.
  set (c := fst (Command "echo" [WithArgs ["a"]; Pipe "sed" ["x"]] w0)).
  set (w := snd (Command "echo" [WithArgs ["a"]; Pipe "sed" ["x"]] w0)).
  assert (H1 : Next c = Some (next_of c)) by (vm_compute; reflexivity).
  assert (H2 : ProcessState (cmd c) = None) by (vm_compute; reflexivity).
  assert (H3 : Process (cmd (next_of c)) = None) by (vm_compute; reflexivity).
  assert (H4 : Start c w = (None, snd (fst (Start c w)), snd (Start c w)))
    by (vm_compute; reflexivity).
  split; [exact H1|]. split; [exact H2|]. split; [exact H3|].
  split; [vm_compute; reflexivity|].
  exact (proj2 (next_span_is_child c (next_of c) w _ _ H1 H2 H3 H4)).
Defined.

Lemma wiring_links_stages_witness :
  let c := fst (applyOptions applyOption [Pipe "sed" ["x"]] echo_created w0) in
  Forall (fun n => Err (cmd n) = None) (nodes c)
  /\ linked_from (fresh w0) (nodes (snd (fst (setupCmd c w0)))).
Proof.
  cbv zeta.
  set (c := fst (applyOptions applyOption [Pipe "sed" ["x"]] echo_created w0)).
  assert (H : Forall (fun n => Err (cmd n) = None) (nodes c)).
  { assert (E : map (fun n => Err (cmd n)) (nodes c) = [None; None])
      by (vm_compute; reflexivity).
    apply (Forall_map (fun n => Err (cmd n)) (fun o => o = None)).
    rewrite E. now repeat constructor. }
  split; [exact H|].
  exact (proj1 (wiring_links_stages c w0 H)).
Defined.

Lemma constructed_pipeline_is_wired_witness :
  let opts := [WithTracer (UserTracer 1); Pipe "sed" ["x"];
               WithStdout (WUser 9); WithEnv "K" "v"] in
  resolve "echo" = None
  /\ Forall (fun nm => resolve nm = None) (pipe_names opts)
  /\ shares_config (fst (CommandContext context_Background "echo" opts w0)).
Proof.
  cbv zeta.
  assert (H1 : resolve "echo" = None) by reflexivity.
  assert (H2 : Forall (fun nm => resolve nm = None)
                 (pipe_names [WithTracer (UserTracer 1); Pipe "sed" ["x"];
                              WithStdout (WUser 9); WithEnv "K" "v"]))
    by (repeat constructor).
  split; [exact H1|]. split; [exact H2|].
  exact (proj1 (proj2 (constructed_pipeline_is_wired context_Background "echo"
                         _ w0 H1 H2))).
Defined.

Lemma Start_hands_over_witness :
  Process (cmd echo_created) = None
  /\ exists e res post,
       events (snd (Start echo_created w0))
       = events w0 ++ span_event echo_created w0 :: EvSpawn e res :: post
       /\ Env e = Env (cmd echo_created) ++ trace_env (fresh w0).
Proof.
  split; [reflexivity|].
  pose proof (Start_hands_over echo_created w0 eq_refl) as H.
  destruct (Start echo_created w0) as [[r c'] w'].
  destruct H as (e & res & post & H1 & _ & _ & _ & _ & _ & H7 & _).
  exists e, res, post. now split.
Defined.

Lemma Start_records_the_spawned_args_witness :
  Process (cmd echo_created) = None
  /\ exists l,
       events (snd (Start echo_created w0)) = events w0 ++ l
       /\ recorded_args l = [["/bin/echo"; "hello world"]]
       /\ spawned_args l = [["/bin/echo"; "hello world"]].
Proof.
  split; [reflexivity|].
  pose proof (Start_records_the_spawned_args echo_created w0 eq_refl) as H.
  destruct (Start echo_created w0) as [[r c'] w'].
  destruct H as (l & H1 & H2 & H3 & _).
  exists l. split; [exact H1|]. split; [exact H2 | exact H3].
Defined.

(** C7 as the spec has it: a transform supplied to the command is applied
    to the argument list recorded on the span, and not to the list that is
    spawned.  [echo hello c d] is the command of [Test_WithArgsRedaction],
    whose transform returns no argument at all.  Built with the options the
    package has, it is recorded in full, as it is spawned; and whichever
    options of the package are added to the call, what [Start] records is
    never the image of the argument list under that transform. *)
Lemma no_option_supplies_a_transform :
  (let '(c, w) := echo_with [] in
   let '(err, c', w') := Start c w in
   err = None
   /\ recorded_args (events w') = [["/bin/echo"; "hello"; "c"; "d"]]
   /\ spawned_args (events w') = [["/bin/echo"; "hello"; "c"; "d"]])
  /\ ~ (exists extra : list Option,
          let transform := fun _ : list string => @nil string in
          let '(c, w) := echo_with extra in
          recorded_args (events (snd (Start c w)))
          = [transform (Args (cmd c))]).
Proof.
  split; [vm_compute; split; [reflexivity|split; reflexivity]|].
  intros [extra H]. cbv zeta in H. unfold echo_with, Command in H.
  match type of H with context [CommandContext ?x ?nm ?opts ?w] =>
    pose proof (CommandContext_Args x nm opts w) as HA;
    destruct (logs_CommandContext x nm opts w) as (l0 & E0 & L0);
    destruct (CommandContext x nm opts w) as [c w1] end.
  cbn [fst snd] in *. apply recorded_args_logs in L0.
  destruct (Process (cmd c)) as [p|] eqn:HP.
  - rewrite Start_already_started in H by (rewrite HP; discriminate).
    cbn [snd] in H. rewrite E0, recorded_args_app, L0 in H. discriminate.
  - destruct (Start_args_run c w1 HP) as (l & E1 & R1 & _).
    rewrite E1, E0, !recorded_args_app, L0, R1 in H. cbn in H.
    injection H as H. now apply HA.
Qed.

End Checks.
